(** * GLASS-NIRISS: the extended model galaxy of [glass_niriss/grism/specgen.py]

    A shallow embedding of [H], [addAbs] and of the two methods
    [ExtendedModelGalaxy.update] and
    [ExtendedModelGalaxy._calculate_full_spectrum].

    Conventions of the embedding.
    - Python and numpy floats are read as real numbers ([R]): every
      arithmetic operation is the exact one, so rounding, overflow, [inf]
      and [nan] are outside the model.
    - A one-dimensional numpy array is a [list R]; the arrays handed over by
      the bagpipes objects are taken to live on the wavelength grid, so the
      element-wise operations are written with [zip_with] and carry no
      shape check of their own.
    - A Python exception is a [Raise] result; the exceptions modelled are
      those of dictionary access, of attribute access, of list indexing and
      of the nearest-index search of the line removal.
    - The model-components dictionary is a dictionary whose values are
      scalars or references to sub-dictionaries living in a store of
      Python objects, so that [deepcopy] and the in-place writes of the
      metallicity override are visible.
    - The bagpipes objects ([sfh], [stellar], [nebular], [dust_atten],
      [dust_emission], [igm], [agn], the inherited [_calculate_*] methods,
      [measure_index], the tables of [config] and [utils]) are not part of
      this repository: they are the fields of the record [Bagpipes]. *)

From Stdlib Require Import Reals Lra.
From stdpp Require Import base option list gmap strings.

Open Scope R_scope.

(** ** Exceptions *)

Inductive Exn : Type :=
| KeyError (key : string)
| TypeError
| ValueError
| IndexError
| AttributeError (attr : string).

Inductive Res (A : Type) : Type :=
| Ok (a : A)
| Raise (e : Exn).
Arguments Ok {A} a.
Arguments Raise {A} e.

#[global] Instance Res_ret : MRet Res := fun A a => Ok a.
#[global] Instance Res_bind : MBind Res := fun A B f m =>
  match m with
  | Ok a => f a
  | Raise e => Raise e
  end.

Definition raises {A} (m : Res A) : Prop := ∃ e, m = Raise e.

(** Reading an attribute that may not have been assigned yet. *)
Definition attr {A} (name : string) (o : option A) : Res A :=
  match o with
  | Some a => Ok a
  | None => Raise (AttributeError name)
  end.

(** ** numpy on one-dimensional arrays *)

#[global] Instance Rlt_decision : RelDecision Rlt := Rlt_dec.

Definition Rltb (x y : R) : bool := bool_decide (x < y).

Definition vadd (a b : list R) : list R := zip_with Rplus a b.
Definition vsub (a b : list R) : list R := zip_with Rminus a b.
Definition vmul (a b : list R) : list R := zip_with Rmult a b.
Definition vscale (c : R) (a : list R) : list R := Rmult c <$> a.
Definition vdiv_scalar (a : list R) (c : R) : list R := (λ x, x / c) <$> a.
Definition vmul_scalar (a : list R) (c : R) : list R := (λ x, x * c) <$> a.

(** [np.zeros_like(a)] and [np.zeros(n)]. *)
Definition np_zeros_like (a : list R) : list R := (λ _, 0) <$> a.
Definition np_zeros (n : nat) : list R := replicate n 0.

(** [np.trapz(y, x=x)]: the sum of [(x[i+1] - x[i]) * (y[i+1] + y[i]) / 2]. *)
Fixpoint np_trapz (y x : list R) : R :=
  match y, x with
  | y0 :: ((y1 :: _) as y'), x0 :: ((x1 :: _) as x') =>
      (x1 - x0) * (y1 + y0) / 2 + np_trapz y' x'
  | _, _ => 0
  end.

(** [a[i]] for a list index [i >= 0]. *)
Definition index {A} (a : list A) (i : nat) : Res A :=
  match a !! i with
  | Some x => Ok x
  | None => Raise IndexError
  end.

(** [a.argmin()] of a flattened array: the first position of the least
    element; numpy raises [ValueError] on an empty array. *)
Fixpoint argmin_from (best : R) (besti i : nat) (l : list R) : nat :=
  match l with
  | [] => besti
  | x :: l' =>
      if Rltb x best then argmin_from x i (S i) l'
      else argmin_from best besti (S i) l'
  end.

Definition np_argmin (l : list R) : Res nat :=
  match l with
  | [] => Raise ValueError
  | x :: l' => Ok (argmin_from x 0 1 l')
  end.

(** [np.argwhere(names == rm)] has shape (k, 1): the column of the positions
    of [rm].  A (k, 1) array is represented by the list of its k entries. *)
Fixpoint argwhere_from (i : nat) (names : list string) (rm : string) : list nat :=
  match names with
  | [] => []
  | n :: names' =>
      if decide (n = rm) then i :: argwhere_from (S i) names' rm
      else argwhere_from (S i) names' rm
  end.

Definition np_argwhere (names : list string) (rm : string) : list nat :=
  argwhere_from 0 names rm.

(** [a[idx]] for an index array [idx] of shape (k, 1): shape (k, 1) again. *)
Definition take_col (a : list R) (idx : list nat) : Res (list R) :=
  mapM (λ i, index a i) idx.

(** [np.abs(wavs - col)] for [wavs] of shape (n,) and [col] of shape (k, 1)
    broadcasts to shape (k, n); [argmin] then runs over the rows laid end
    to end. *)
Definition abs_diff_flat (wavs col : list R) : list R :=
  concat ((λ s, (λ w, Rabs (w - s)) <$> wavs) <$> col).

(** ** The Voigt-Hjerting profile and the DLA absorption *)

Definition H (a x : R) : R :=
  let P := x ^ 2 in
  let H0 := exp (- (x ^ 2)) in
  let Q := 1.5 * / (x ^ 2) in
  H0 - a / sqrt PI / P * (H0 ^ 2 * (4.0 * P ^ 2 + 7.0 * P + 4.0 + Q) - Q - 1.0).

Definition addAbs (wl_mod : list R) (t zabs : R) : list R :=
  let m_e := 9.1095e-28 in
  let e := 4.8032e-10 in
  let c := 2.998e10 in
  let lamb := 1215.67 in
  let f := 0.416 in
  let gamma := 6.265e8 in
  let broad := 1 in
  let C_a := sqrt PI * e ^ 2 * f * lamb * 1e-8 / m_e / c / broad in
  let a := lamb * 1.0e-8 * gamma / (4.0 * PI * broad) in
  let dl_D := broad / c * lamb in
  let x := (λ w, (w / (zabs + 1.0) - lamb) / dl_D + 0.01) <$> wl_mod in
  let tau := (λ xi, C_a * t * H a xi) <$> x in
  (λ ti, exp (- ti)) <$> tau.

(** ** Model components: dictionaries and the store of Python objects *)

Inductive Scalar : Type :=
| Num (r : R)
| Str (s : string).

(** A value of the top-level dictionary: a scalar, or a reference to a
    sub-dictionary object. *)
Inductive Entry : Type :=
| EScalar (s : Scalar)
| ERef (l : nat).

#[global] Instance R_eq_dec : EqDecision R := Req_dec_T.
#[global] Instance Scalar_eq_dec : EqDecision Scalar.
Proof. solve_decision. Defined.
#[global] Instance Entry_eq_dec : EqDecision Entry.
Proof. solve_decision. Defined.

(** The same value with the reference followed: what a reader of the
    dictionary sees. *)
Inductive Value : Type :=
| VScalar (s : Scalar)
| VDict (d : gmap string Scalar).

Abbreviation SubDict := (gmap string Scalar).
Abbreviation TopDict := (gmap string Entry).
Abbreviation ModelComp := (gmap string Value).
Abbreviation Store := (list (gmap string Scalar)).

Definition resolve (h : Store) (e : Entry) : Value :=
  match e with
  | EScalar s => VScalar s
  | ERef l => VDict (h !!! l)
  end.

(** The contents of a model-components dictionary in a given store. *)
Definition snap (h : Store) (mc : TopDict) : ModelComp := resolve h <$> mc.

(** No dangling reference. *)
Definition wf_dict (h : Store) (mc : TopDict) : Prop :=
  ∀ k l, mc !! k = Some (ERef l) → (l < length h)%nat.

(** [d[k]] *)
Definition getitem {V} (d : gmap string V) (k : string) : Res V :=
  match d !! k with
  | Some v => Ok v
  | None => Raise (KeyError k)
  end.

(** [k in list(d)] *)
Definition has_key {V} (d : gmap string V) (k : string) : bool :=
  bool_decide (is_Some (d !! k)).

Definition as_num (s : Scalar) : Res R :=
  match s with
  | Num r => Ok r
  | Str _ => Raise TypeError
  end.

(** [model_comp[k]] used as a number. *)
Definition get_num (mc : TopDict) (k : string) : Res R :=
  e ← getitem mc k;
  match e with
  | EScalar s => as_num s
  | ERef _ => Raise TypeError
  end.

(** [model_comp[k]] used as a dictionary. *)
Definition get_sub (h : Store) (mc : TopDict) (k : string) : Res SubDict :=
  e ← getitem mc k;
  match e with
  | ERef l => Ok (h !!! l)
  | EScalar _ => Raise TypeError
  end.

(** [d[k]] used as a number, for a sub-dictionary [d]. *)
Definition sub_num (d : SubDict) (k : string) : Res R :=
  getitem d k ≫= as_num.

(** [d.get(k, default)] used as a number. *)
Definition sub_get_num (d : SubDict) (k : string) (default : R) : Res R :=
  match d !! k with
  | Some s => as_num s
  | None => Ok default
  end.

(** [copy.deepcopy(model_comp)]: a new top-level dictionary whose
    sub-dictionaries are fresh objects, one per distinct original object
    (the memo of [deepcopy] keeps the sharing). *)
Fixpoint deepcopy_items (h : Store) (memo : gmap nat nat)
    (items : list (string * Entry)) : Store * list (string * Entry) :=
  match items with
  | [] => (h, [])
  | (k, EScalar s) :: rest =>
      let '(h', out) := deepcopy_items h memo rest in
      (h', (k, EScalar s) :: out)
  | (k, ERef l) :: rest =>
      match memo !! l with
      | Some l' =>
          let '(h', out) := deepcopy_items h memo rest in
          (h', (k, ERef l') :: out)
      | None =>
          let l' := length h in
          let '(h', out) :=
            deepcopy_items (h ++ [h !!! l]) (<[l := l']> memo) rest in
          (h', (k, ERef l') :: out)
      end
  end.

Definition deepcopy (h : Store) (mc : TopDict) : Store * TopDict :=
  let '(h', out) := deepcopy_items h ∅ (map_to_list mc) in
  (h', list_to_map out).

(** One turn of
    [for comp in list(neb_comp):
         if isinstance(neb_comp[comp], dict):
             neb_comp[comp]["metallicity"] = nebular_metallicity]. *)
Definition set_metallicity (v : Scalar) (h : Store) (e : Entry) : Store :=
  match e with
  | ERef l => alter (<["metallicity" := v]>) l h
  | EScalar _ => h
  end.

(** Lines 227-230: the copy and the loop over its keys. *)
Definition nebular_components (v : Scalar) (h : Store) (mc : TopDict)
    : Store * TopDict :=
  let '(h', neb_comp) := deepcopy h mc in
  (foldl (set_metallicity v) h' (map_to_list neb_comp).*2, neb_comp).

(** What the loop does to the contents of a dictionary: every value that is
    a dictionary gets the key, the other values are kept. *)
Definition with_metallicity (v : Scalar) (x : Value) : Value :=
  match x with
  | VDict d => VDict (<["metallicity" := v]> d)
  | VScalar s => VScalar s
  end.

(** ** The bagpipes objects and tables the methods call *)

Record Sfh : Type := {
  unphysical : bool;
  ceh_grid : list (list R);
}.

Record DustAtten : Type := {
  A_cont : list R;
  A_line : list R;
}.

Record IndexDef : Type := {
  ind_name : string;
  ind_spec : list (list R);
}.

(** Each [update] of a bagpipes object recomputes that object from the
    parameters it is given; each other method is a function of its
    arguments and, for the inherited [_calculate_*] methods, of the full
    spectrum they read. *)
Record Bagpipes : Type := {
  (** [config.line_names], [config.line_wavs] *)
  line_names : list string;
  line_wavs : list R;
  (** [utils.z_array], [utils.ldist_at_z] *)
  z_array : list R;
  ldist_at_z : list R;
  (** [np.interp(x, xp, fp, left=0, right=0)] at one point [x], as
      [np_interp xp fp x] *)
  np_interp : list R → list R → R → R;
  (** [self.sfh.update], [self.neb_sfh.update] *)
  sfh_update : ModelComp → Sfh;
  neb_sfh_update : ModelComp → Sfh;
  (** [self.dust_atten.update] *)
  dust_atten_update : SubDict → DustAtten;
  (** [self.stellar.spectrum(grid, t_bc)]: [(spectrum_bc, spectrum)] *)
  stellar_spectrum : list (list R) → R → list R * list R;
  (** [self.nebular.line_fluxes], [self.nebular.spectrum] at
      [(grid, t_bc, logU)] *)
  nebular_line_fluxes : list (list R) → R → R → list R;
  nebular_spectrum : list (list R) → R → R → list R;
  (** [self.dust_emission.spectrum(qpah, umin, gamma)] *)
  dust_emission_spectrum : R → R → R → list R;
  (** [self.igm.trans(redshift)] *)
  igm_trans : R → list R;
  (** [self.agn.update(param)], as the new [self.agn.spectrum] *)
  agn_update : SubDict → list R;
  (** [self._calculate_spectrum(model_comp)], as the new [self.spectrum] *)
  calculate_spectrum : list R → ModelComp → list (R * R);
  (** [self._calculate_photometry(redshift)], as the new [self.photometry] *)
  calculate_photometry : list R → R → list R;
  (** [self._calculate_uvj_mags()], as the new [self.uvj] *)
  calculate_uvj_mags : list R → list R;
  (** [measure_index(ind, spectrum, redshift)] *)
  measure_index : IndexDef → list (R * R) → R → R;
}.

(** ** The instance: what the constructor fixes, and the attributes *)

Record Config : Type := {
  wavelengths : list R;
  spec_wavs : option (list R);
  filt_list : option (list string);
  index_list : option (list IndexDef);
  (** [self.dust_atten], [self.nebular], [self.agn] are objects, not
      [False] *)
  dust_enabled : bool;
  nebular_enabled : bool;
  agn_enabled : bool;
}.

(** [None] is an attribute that has not been assigned. *)
Record Galaxy : Type := {
  self_model_comp : option TopDict;
  self_sfh : option Sfh;
  self_neb_sfh : option Sfh;
  self_dust_atten : option DustAtten;
  self_agn_spectrum : option (list R);
  self_spectrum_full : option (list R);
  self_spectrum_bc : option (list R);
  self_line_fluxes : option (gmap string R);
  self_lum_flux : option R;
  self_uvj : option (list R);
  self_spectrum : option (list (R * R));
  self_photometry : option (list R);
  self_index_names : option (list string);
  self_indices : option (list R);
}.

Definition set_model_comp (v : TopDict) (g : Galaxy) : Galaxy :=
  let 'Build_Galaxy _ a2 a3 a4 a5 a6 a7 a8 a9 a10 a11 a12 a13 a14 := g in
  Build_Galaxy (Some v) a2 a3 a4 a5 a6 a7 a8 a9 a10 a11 a12 a13 a14.
Definition set_sfh (v : Sfh) (g : Galaxy) : Galaxy :=
  let 'Build_Galaxy a1 _ a3 a4 a5 a6 a7 a8 a9 a10 a11 a12 a13 a14 := g in
  Build_Galaxy a1 (Some v) a3 a4 a5 a6 a7 a8 a9 a10 a11 a12 a13 a14.
Definition set_neb_sfh (v : Sfh) (g : Galaxy) : Galaxy :=
  let 'Build_Galaxy a1 a2 _ a4 a5 a6 a7 a8 a9 a10 a11 a12 a13 a14 := g in
  Build_Galaxy a1 a2 (Some v) a4 a5 a6 a7 a8 a9 a10 a11 a12 a13 a14.
Definition set_dust_atten (v : DustAtten) (g : Galaxy) : Galaxy :=
  let 'Build_Galaxy a1 a2 a3 _ a5 a6 a7 a8 a9 a10 a11 a12 a13 a14 := g in
  Build_Galaxy a1 a2 a3 (Some v) a5 a6 a7 a8 a9 a10 a11 a12 a13 a14.
Definition set_agn_spectrum (v : list R) (g : Galaxy) : Galaxy :=
  let 'Build_Galaxy a1 a2 a3 a4 _ a6 a7 a8 a9 a10 a11 a12 a13 a14 := g in
  Build_Galaxy a1 a2 a3 a4 (Some v) a6 a7 a8 a9 a10 a11 a12 a13 a14.
Definition set_spectrum_full (v : list R) (g : Galaxy) : Galaxy :=
  let 'Build_Galaxy a1 a2 a3 a4 a5 _ a7 a8 a9 a10 a11 a12 a13 a14 := g in
  Build_Galaxy a1 a2 a3 a4 a5 (Some v) a7 a8 a9 a10 a11 a12 a13 a14.
Definition set_spectrum_bc (v : list R) (g : Galaxy) : Galaxy :=
  let 'Build_Galaxy a1 a2 a3 a4 a5 a6 _ a8 a9 a10 a11 a12 a13 a14 := g in
  Build_Galaxy a1 a2 a3 a4 a5 a6 (Some v) a8 a9 a10 a11 a12 a13 a14.
Definition set_line_fluxes (v : gmap string R) (g : Galaxy) : Galaxy :=
  let 'Build_Galaxy a1 a2 a3 a4 a5 a6 a7 _ a9 a10 a11 a12 a13 a14 := g in
  Build_Galaxy a1 a2 a3 a4 a5 a6 a7 (Some v) a9 a10 a11 a12 a13 a14.
Definition set_lum_flux (v : R) (g : Galaxy) : Galaxy :=
  let 'Build_Galaxy a1 a2 a3 a4 a5 a6 a7 a8 _ a10 a11 a12 a13 a14 := g in
  Build_Galaxy a1 a2 a3 a4 a5 a6 a7 a8 (Some v) a10 a11 a12 a13 a14.
Definition set_uvj (v : list R) (g : Galaxy) : Galaxy :=
  let 'Build_Galaxy a1 a2 a3 a4 a5 a6 a7 a8 a9 _ a11 a12 a13 a14 := g in
  Build_Galaxy a1 a2 a3 a4 a5 a6 a7 a8 a9 (Some v) a11 a12 a13 a14.
Definition set_spectrum (v : list (R * R)) (g : Galaxy) : Galaxy :=
  let 'Build_Galaxy a1 a2 a3 a4 a5 a6 a7 a8 a9 a10 _ a12 a13 a14 := g in
  Build_Galaxy a1 a2 a3 a4 a5 a6 a7 a8 a9 a10 (Some v) a12 a13 a14.
Definition set_photometry (v : list R) (g : Galaxy) : Galaxy :=
  let 'Build_Galaxy a1 a2 a3 a4 a5 a6 a7 a8 a9 a10 a11 _ a13 a14 := g in
  Build_Galaxy a1 a2 a3 a4 a5 a6 a7 a8 a9 a10 a11 (Some v) a13 a14.
Definition set_index_names (v : list string) (g : Galaxy) : Galaxy :=
  let 'Build_Galaxy a1 a2 a3 a4 a5 a6 a7 a8 a9 a10 a11 a12 _ a14 := g in
  Build_Galaxy a1 a2 a3 a4 a5 a6 a7 a8 a9 a10 a11 a12 (Some v) a14.
Definition set_indices (v : list R) (g : Galaxy) : Galaxy :=
  let 'Build_Galaxy a1 a2 a3 a4 a5 a6 a7 a8 a9 a10 a11 a12 a13 _ := g in
  Build_Galaxy a1 a2 a3 a4 a5 a6 a7 a8 a9 a10 a11 a12 a13 (Some v).

(** The interpreter around the instance: the store of dictionary objects
    and the warnings issued so far. *)
Inductive Warning : Type :=
| RuntimeWarning (msg : string).

Record World : Type := {
  heap : Store;
  emitted : list Warning;
}.

Definition warn (wn : Warning) (w : World) : World :=
  {| heap := heap w; emitted := emitted w ++ [wn] |}.

Definition set_heap (h : Store) (w : World) : World :=
  {| heap := h; emitted := emitted w |}.

(** ** The two methods *)

Definition pow10 (x : R) : R := Rpower 10 x.

(** [a[wavs < limit] = 0.0] *)
Definition mask_below (wavs : list R) (limit : R) (a : list R) : list R :=
  zip_with (λ w x, if Rltb w limit then 0 else x) wavs a.

(** [dict(zip(names, values))]: a later duplicate of a name wins. *)
Definition dict_of_zip (names : list string) (values : list R) : gmap string R :=
  foldl (λ m kv, <[kv.1 := kv.2]> m) ∅ (zip names values).

Definition unphysical_msg : string :=
  "The requested model includes stars which formed before the Big Bang, no spectrum generated.".

Section ExtendedModelGalaxy.

Variable B : Bagpipes.
Variable cfg : Config.

(** *** Line removal (lines 245-258) *)

(** One turn of the loop over [rm_line]; [neb] is [model_comp["nebular"]]. *)
Definition remove_line (neb : SubDict) (em_lines spectrum_bc : list R)
    (rm : string) : Res (list R) :=
  let rm_line_idx := np_argwhere (line_names B) rm in
  wav ← take_col (line_wavs B) rm_line_idx;
  velshift ← sub_get_num neb "velshift" 0;
  let line_wav_shift := (λ x, x * (1 + velshift / (3 * 10 ^ 5))) <$> wav in
  ind ← np_argmin (abs_diff_flat (wavelengths cfg) line_wav_shift);
  if bool_decide (ind ≠ 0%nat ∧ ind ≠ (length (wavelengths cfg) - 1)%nat) then
    hi ← index (wavelengths cfg) (ind + 1);
    lo ← index (wavelengths cfg) (ind - 1);
    let width := (hi - lo) / 2 in
    old ← index spectrum_bc ind;
    flux ← take_col em_lines rm_line_idx;
    match (λ f, old - f / width) <$> flux with
    | [new] => Ok (<[ind := new]> spectrum_bc)
    | _ => Raise ValueError
    end
  else Ok spectrum_bc.

Fixpoint remove_lines (neb : SubDict) (em_lines spectrum_bc : list R)
    (rm_line : list string) : Res (list R) :=
  match rm_line with
  | [] => Ok spectrum_bc
  | rm :: rest =>
      spectrum_bc' ← remove_line neb em_lines spectrum_bc rm;
      remove_lines neb em_lines spectrum_bc' rest
  end.

(** *** Nebular emission (lines 223-258) *)

(** Lines 223-233: the grid handed to the nebular model. *)
Definition nebular_grid (h : Store) (g : Galaxy) (mc : TopDict)
    : Res (Store * Galaxy * list (list R)) :=
  s ← attr "sfh" (self_sfh g);
  let grid := ceh_grid s in
  neb ← get_sub h mc "nebular";
  if has_key neb "metallicity" then
    nebular_metallicity ← getitem neb "metallicity";
    let '(h', neb_comp) := nebular_components nebular_metallicity h mc in
    let ns := neb_sfh_update B (snap h' neb_comp) in
    Ok (h', set_neb_sfh ns g, ceh_grid ns)
  else Ok (h, g, grid).

(** Lines 239-243: the stellar birth-cloud spectrum with the flux below
    912 A removed, then the nebular spectrum added to it. *)
Definition lyman_zeroed (spectrum_bc : list R) : list R :=
  mask_below (wavelengths cfg) 912.0 spectrum_bc.

Definition add_nebular (spectrum_bc nebular : list R) : list R :=
  vadd (lyman_zeroed spectrum_bc) nebular.

Definition nebular_stage (h : Store) (g : Galaxy) (mc : TopDict) (t_bc : R)
    (spectrum_bc em_lines : list R) (rm_line : option (list string))
    : Res (Store * Galaxy * list R * list R) :=
  '(h, g, grid) ← nebular_grid h g mc;
  neb ← get_sub h mc "nebular";
  logU ← sub_num neb "logU";
  let em_lines := vadd em_lines (nebular_line_fluxes B grid t_bc logU) in
  neb ← get_sub h mc "nebular";
  logU ← sub_num neb "logU";
  let spectrum_bc := add_nebular spectrum_bc (nebular_spectrum B grid t_bc logU) in
  spectrum_bc ←
    match rm_line with
    | Some rm_line =>
        neb ← get_sub h mc "nebular";
        remove_lines neb em_lines spectrum_bc rm_line
    | None => Ok spectrum_bc
    end;
  Ok (h, g, spectrum_bc, em_lines).

(** *** Dust (lines 261-303) *)

(** Lines 262-279, with [dust] for [model_comp["dust"]]: the birth-cloud
    spectrum, the line fluxes and [dust_flux]. *)
Definition birth_cloud_dust (da : DustAtten) (dust : SubDict)
    (spectrum_bc em_lines : list R) : Res (list R * list R * R) :=
  let dust_flux := 0.0 in
  '(eta, spectrum_bc, dust_flux) ←
    (if has_key dust "eta" then
       eta ← sub_num dust "eta";
       Av ← sub_num dust "Av";
       let bc_Av_reduced := (eta - 1.0) * Av in
       let bc_trans_red := (λ a, pow10 (- bc_Av_reduced * a / 2.5)) <$> A_cont da in
       let spectrum_bc_dust := vmul spectrum_bc bc_trans_red in
       Ok (eta, spectrum_bc_dust,
           dust_flux + np_trapz (vsub spectrum_bc spectrum_bc_dust) (wavelengths cfg))
     else Ok (1.0, spectrum_bc, dust_flux));
  Av ← sub_num dust "Av";
  let bc_Av := eta * Av in
  let em_lines := vmul em_lines ((λ a, pow10 (- bc_Av * a / 2.5)) <$> A_line da) in
  Ok (spectrum_bc, em_lines, dust_flux).

(** The term line 303 adds to the spectrum. *)
Definition dust_reemission (dust_flux : R) (template : list R) : list R :=
  vscale dust_flux template.

(** Lines 285-303: the attenuated spectrum with the dust emission added,
    the new [self.spectrum_bc], and the final [dust_flux]. *)
Definition diffuse_dust (da : DustAtten) (dust : SubDict)
    (spectrum spectrum_bc : list R) (dust_flux : R)
    : Res (list R * list R * R) :=
  Av ← sub_num dust "Av";
  let trans := (λ a, pow10 (- Av * a / 2.5)) <$> A_cont da in
  let dust_spectrum := vmul spectrum trans in
  let dust_flux := dust_flux + np_trapz (vsub spectrum dust_spectrum) (wavelengths cfg) in
  let new_spectrum_bc := vmul spectrum_bc trans in
  qpah ← (if has_key dust "qpah" then sub_num dust "qpah" else Ok 2.0);
  umin ← (if has_key dust "umin" then sub_num dust "umin" else Ok 1.0);
  gamma ← (if has_key dust "gamma" then sub_num dust "gamma" else Ok 0.01);
  let spectrum :=
    vadd dust_spectrum
      (dust_reemission dust_flux (dust_emission_spectrum B qpah umin gamma)) in
  Ok (spectrum, new_spectrum_bc, dust_flux).

(** *** The damped absorber (lines 307-312) *)

(** The first argument of [addAbs] at line 309. *)
Definition dla_wavelengths (redshift : R) : list R :=
  vmul_scalar (wavelengths cfg) redshift.

Definition dla_stage (h : Store) (g : Galaxy) (mc : TopDict)
    (spectrum : list R) : Res (list R) :=
  if has_key mc "dla" then
    self_mc ← attr "model_comp" (self_model_comp g);
    redshift ← get_num self_mc "redshift";
    dla ← get_sub h self_mc "dla";
    t ← sub_num dla "t";
    dla ← get_sub h self_mc "dla";
    zabs ← sub_num dla "zabs";
    Ok (vmul spectrum (addAbs (dla_wavelengths redshift) t zabs))
  else Ok spectrum.

(** *** From luminosity to observed flux (lines 317-351) *)

(** [self.lum_flux] after lines 318-332. *)
Definition flux_dilution (redshift : R) : R :=
  if Rltb 0.0 redshift then
    let ldist_cm :=
      3.086 * 10 ^ 24 * np_interp B (z_array B) (ldist_at_z B) redshift in
    4 * PI * ldist_cm ^ 2
  else 1.0.

Definition L_sun : R := 3.826 * 10 ^ 33.

Definition to_observed_flux (g : Galaxy) (redshift : R)
    (spectrum em_lines : list R) : Res Galaxy :=
  let g := set_lum_flux (flux_dilution redshift) g in
  lum ← attr "lum_flux" (self_lum_flux g);
  let spectrum := vdiv_scalar spectrum (lum * (1.0 + redshift)) in
  g ← (if dust_enabled cfg then
         bc ← attr "spectrum_bc" (self_spectrum_bc g);
         Ok (set_spectrum_bc (vdiv_scalar bc (lum * (1.0 + redshift))) g)
       else Ok g);
  let em_lines := vdiv_scalar em_lines lum in
  let spectrum := vmul_scalar spectrum L_sun in
  g ← (if dust_enabled cfg then
         bc ← attr "spectrum_bc" (self_spectrum_bc g);
         Ok (set_spectrum_bc (vmul_scalar bc L_sun) g)
       else Ok g);
  let em_lines := vmul_scalar em_lines L_sun in
  let g := set_line_fluxes (dict_of_zip (line_names B) em_lines) g in
  Ok (set_spectrum_full spectrum g).

(** *** [_calculate_full_spectrum] *)

Definition _calculate_full_spectrum (h : Store) (g : Galaxy) (model_comp : TopDict)
    (cont_only : bool) (rm_line : option (list string)) : Res (Store * Galaxy) :=
  t_bc ← (if has_key model_comp "t_bc" then get_num model_comp "t_bc" else Ok 0.01);
  s ← attr "sfh" (self_sfh g);
  let '(spectrum_bc, spectrum) := stellar_spectrum B (ceh_grid s) t_bc in
  let em_lines := np_zeros_like (line_wavs B) in
  '(h, g, spectrum_bc, em_lines) ←
    (if nebular_enabled cfg && negb cont_only then
       nebular_stage h g model_comp t_bc spectrum_bc em_lines rm_line
     else Ok (h, g, spectrum_bc, em_lines));
  (* Add attenuation due to stellar birth clouds. *)
  '(spectrum_bc, em_lines, dust_flux) ←
    (if dust_enabled cfg then
       dust ← get_sub h model_comp "dust";
       da ← attr "dust_atten" (self_dust_atten g);
       birth_cloud_dust da dust spectrum_bc em_lines
     else Ok (spectrum_bc, em_lines, 0.0));
  (* Add birth cloud spectrum to spectrum. *)
  let spectrum := vadd spectrum spectrum_bc in
  (* Add attenuation due to the diffuse ISM. *)
  '(g, spectrum) ←
    (if dust_enabled cfg then
       dust ← get_sub h model_comp "dust";
       da ← attr "dust_atten" (self_dust_atten g);
       '(spectrum, new_spectrum_bc, _) ←
         diffuse_dust da dust spectrum spectrum_bc dust_flux;
       Ok (set_spectrum_bc new_spectrum_bc g, spectrum)
     else Ok (g, spectrum));
  redshift ← get_num model_comp "redshift";
  let spectrum := vmul spectrum (igm_trans B redshift) in
  spectrum ← dla_stage h g model_comp spectrum;
  g ← (if dust_enabled cfg then
         bc ← attr "spectrum_bc" (self_spectrum_bc g);
         Ok (set_spectrum_bc (vmul bc (igm_trans B redshift)) g)
       else Ok g);
  (* Convert from luminosity to observed flux at redshift z. *)
  g ← to_observed_flux g redshift spectrum em_lines;
  Ok (h, g).

(** *** [update] *)

(** Lines 145-182 of [update]: the observables computed from the full
    spectrum. *)
Definition observables (w : World) (g : Galaxy) (model_components : TopDict)
    : Res Galaxy :=
  g ← (if spec_wavs cfg is Some _ then
         full ← attr "spectrum_full" (self_spectrum_full g);
         Ok (set_spectrum (calculate_spectrum B full (snap (heap w) model_components)) g)
       else Ok g);
  (* Add any AGN component: *)
  g ← (if agn_enabled cfg then
         self_mc ← attr "model_comp" (self_model_comp g);
         param ← get_sub (heap w) self_mc "agn";
         let g := set_agn_spectrum (agn_update B param) g in
         agn_spec ← attr "agn_spectrum" (self_agn_spectrum g);
         redshift ← get_num self_mc "redshift";
         let agn_spec := vmul agn_spec (igm_trans B redshift) in
         let g := set_agn_spectrum agn_spec g in
         full ← attr "spectrum_full" (self_spectrum_full g);
         let g := set_spectrum_full (vadd full (vdiv_scalar agn_spec (1.0 + redshift))) g in
         match spec_wavs cfg with
         | Some sw =>
             let zplus1 := redshift + 1.0 in
             let agn_interp :=
               np_interp B (vmul_scalar (wavelengths cfg) zplus1)
                 (vdiv_scalar agn_spec zplus1) <$> sw in
             sp ← attr "spectrum" (self_spectrum g);
             Ok (set_spectrum (zip_with (λ row a, (row.1, row.2 + a)) sp agn_interp) g)
         | None => Ok g
         end
       else Ok g);
  g ← (if filt_list cfg is Some _ then
         redshift ← get_num model_components "redshift";
         full ← attr "spectrum_full" (self_spectrum_full g);
         Ok (set_photometry (calculate_photometry B full redshift) g)
       else Ok g);
  s ← attr "sfh" (self_sfh g);
  g ← (if negb (unphysical s) then
         full ← attr "spectrum_full" (self_spectrum_full g);
         Ok (set_uvj (calculate_uvj_mags B full) g)
       else Ok g);
  (* Deal with any spectral index calculations. *)
  match index_list cfg with
  | Some il =>
      let g := set_index_names (ind_name <$> il) g in
      let g := set_indices (np_zeros (length il)) g in
      values ← mapM (λ ind,
                 sp ← attr "spectrum" (self_spectrum g);
                 redshift ← get_num model_components "redshift";
                 Ok (measure_index B ind sp redshift)) il;
      Ok (set_indices values g)
  | None => Ok g
  end.

(** Lines 124-143 of [update]: the objects are updated and the full
    spectrum is synthesised, or zeroed with a warning. *)
Definition synthesise (w : World) (g : Galaxy) (model_components : TopDict)
    (cont_only : bool) (rm_line : option (list string)) : Res (World * Galaxy) :=
  let g := set_model_comp model_components g in
  let g := set_sfh (sfh_update B (snap (heap w) model_components)) g in
  g ← (if dust_enabled cfg then
         dust ← get_sub (heap w) model_components "dust";
         Ok (set_dust_atten (dust_atten_update B dust) g)
       else Ok g);
  (* If the SFH is unphysical do not calculate the full spectrum *)
  s ← attr "sfh" (self_sfh g);
  if unphysical s then
    let w := warn (RuntimeWarning unphysical_msg) w in
    let g := set_spectrum_full (np_zeros_like (wavelengths cfg)) g in
    Ok (w, set_uvj (np_zeros 3) g)
  else
    '(h, g) ← _calculate_full_spectrum (heap w) g model_components cont_only rm_line;
    Ok (set_heap h w, g).

Definition update (w : World) (g : Galaxy) (model_components : TopDict)
    (cont_only : bool) (rm_line : option (list string)) : Res (World * Galaxy) :=
  '(w, g) ← synthesise w g model_components cont_only rm_line;
  g ← observables w g model_components;
  Ok (w, g).

End ExtendedModelGalaxy.

(** ** Notions used in the statements *)


(** Every object of [h] is an object of [h'], with the same contents. *)
Definition extends (h h' : Store) : Prop :=
  ∀ l d, h !! l = Some d → h' !! l = Some d.

(** [e'] is the copy of [e] made on top of the store [h0]. *)
Definition copy_of (h0 h' : Store) (e e' : Entry) : Prop :=
  match e, e' with
  | EScalar s, EScalar s' => s = s'
  | ERef l, ERef l' => (length h0 ≤ l')%nat ∧ h' !! l' = Some (h0 !!! l)
  | _, _ => False
  end.

(** The entry [k] of [d], when there is one, is a number. *)
Definition numeric_if_present (d : SubDict) (k : string) : Prop :=
  ∀ s, d !! k = Some s → ∃ r, s = Num r.

(** An optional write of [self.neb_sfh]. *)
Definition opt_set_neb_sfh (wr : option Sfh) (g : Galaxy) : Galaxy :=
  match wr with Some ns => set_neb_sfh ns g | None => g end.


(** ** A small instance, to run the statements on *)

(** An instance on a grid of four wavelengths with a table of two lines.
    Its star-formation history is unphysical exactly when the model
    components have a ["burst"] entry; the arrays it returns are
    constants. *)
Definition demo_bagpipes : Bagpipes := {|
  line_names := ["Halpha"; "Hbeta"];
  line_wavs := [6563; 4861];
  z_array := [0; 10];
  ldist_at_z := [0; 1000];
  np_interp := λ _ _ _, 1;
  sfh_update := λ mc, {| unphysical := has_key mc "burst"; ceh_grid := [] |};
  neb_sfh_update := λ mc, {| unphysical := false; ceh_grid := [[1]] |};
  dust_atten_update := λ _, {| A_cont := [1; 1; 1; 1]; A_line := [1; 1] |};
  stellar_spectrum := λ _ _, ([1; 1; 1; 1], [2; 2; 2; 2]);
  nebular_line_fluxes := λ _ _ _, [3; 5];
  nebular_spectrum := λ _ _ _, [4; 4; 4; 4];
  dust_emission_spectrum := λ _ _ _, [0; 1; 0; 0];
  igm_trans := λ _, [1; 1; 1; 1];
  agn_update := λ _, [1; 1; 1; 1];
  calculate_spectrum := λ full _, zip full full;
  calculate_photometry := λ full _, full;
  calculate_uvj_mags := λ full, take 3 full;
  measure_index := λ _ _ _, 0;
|}.

Definition demo_config (agn : bool) : Config := {|
  wavelengths := [900; 4861; 6563; 9000];
  spec_wavs := None;
  filt_list := None;
  index_list := None;
  dust_enabled := true;
  nebular_enabled := true;
  agn_enabled := agn;
|}.

(** The objects ["dust"], ["nebular"], ["dla"] and ["agn"] of the model
    components. *)
Definition demo_heap : Store :=
  [ {[ "Av" := Num 1 ]};
    {[ "logU" := Num (-3); "metallicity" := Num 0.5 ]};
    {[ "t" := Num 1; "zabs" := Num 0.5 ]};
    {[ "alphalam" := Num 1 ]} ].

Definition demo_world : World := {| heap := demo_heap; emitted := [] |}.

Definition demo_components (redshift : R) : TopDict :=
  {[ "redshift" := EScalar (Num redshift);
     "dust" := ERef 0; "nebular" := ERef 1; "dla" := ERef 2; "agn" := ERef 3 ]}.

Definition demo_unphysical : TopDict :=
  <["burst" := EScalar (Num 14)]> (demo_components 0).

(** An instance none of whose attributes has been assigned. *)
Definition fresh_galaxy : Galaxy := {|
  self_model_comp := None; self_sfh := None; self_neb_sfh := None;
  self_dust_atten := None; self_agn_spectrum := None;
  self_spectrum_full := None; self_spectrum_bc := None;
  self_line_fluxes := None; self_lum_flux := None; self_uvj := None;
  self_spectrum := None; self_photometry := None;
  self_index_names := None; self_indices := None;
|}.

(** An instance without dust and without nebular emission, with an AGN, an
    output grid, one filter and one spectral index. *)
Definition demo_plain_config : Config := {|
  wavelengths := [900; 4861; 6563; 9000];
  spec_wavs := Some [5000; 7000];
  filt_list := Some ["F200W"];
  index_list := Some [ {| ind_name := "D4000"; ind_spec := [] |} ];
  dust_enabled := false;
  nebular_enabled := false;
  agn_enabled := true;
|}.

(** Model components with a damped absorber of column density [1e20] at
    redshift [0.5], for a galaxy at redshift [1]. *)
Definition dla_heap : Store := [ {[ "t" := Num 1e20; "zabs" := Num 0.5 ]} ].

Definition dla_components : TopDict :=
  {[ "redshift" := EScalar (Num 1); "dla" := ERef 0 ]}.

(** * Properties *)

(** ** Generalities *)

Lemma Rltb_true x y : x < y → Rltb x y = true.
Proof. intros. unfold Rltb. by apply bool_decide_eq_true_2. Qed.

Lemma Rltb_false x y : ¬ x < y → Rltb x y = false.
Proof. intros. unfold Rltb. by apply bool_decide_eq_false_2. Qed.

Ltac res_simpl := cbn [mbind Res_bind mret Res_ret].

Lemma bind_raises {A C} (m : Res A) (f : A → Res C) : raises m → raises (m ≫= f).
Proof. intros [e ->]. by exists e. Qed.

Lemma bind_raises_later {A C} (m : Res A) (f : A → Res C) :
  (∀ a, m = Ok a → raises (f a)) → raises (m ≫= f).
Proof.
  intros Hf. destruct m as [a|e]; [by apply Hf | by exists e].
Qed.

Lemma has_key_true {V} (d : gmap string V) k : has_key d k = true ↔ is_Some (d !! k).
Proof. unfold has_key. by rewrite bool_decide_eq_true. Qed.

Lemma fmap_ext_R (f g : R → R) (l : list R) : (∀ x, f x = g x) → f <$> l = g <$> l.
Proof. intros. by apply list_fmap_ext. Qed.

(** ** C7: from luminosity to observed flux *)

Section Conversion.

Variable B : Bagpipes.
Variable cfg : Config.

Lemma flux_dilution_zero : flux_dilution B 0 = 1.
Proof.
  unfold flux_dilution. rewrite Rltb_false by lra. lra.
Qed.

Lemma flux_dilution_pos z :
  0 < z →
  flux_dilution B z =
    4 * PI * (3.086 * 10 ^ 24 * np_interp B (z_array B) (ldist_at_z B) z) ^ 2.
Proof.
  intros Hz. unfold flux_dilution. rewrite Rltb_true by lra. done.
Qed.

Lemma to_observed_flux_Ok (g : Galaxy) (z : R) (spectrum em : list R) :
  (dust_enabled cfg = true → is_Some (self_spectrum_bc g)) →
  let d := flux_dilution B z in
  let conv := (λ a, vmul_scalar (vdiv_scalar a (d * (1.0 + z))) L_sun) in
  ∃ g', to_observed_flux B cfg g z spectrum em = Ok g' ∧
    self_lum_flux g' = Some d ∧
    self_spectrum_full g' = Some (conv spectrum) ∧
    self_spectrum_bc g' =
      (if dust_enabled cfg then conv <$> self_spectrum_bc g else self_spectrum_bc g) ∧
    self_line_fluxes g' =
      Some (dict_of_zip (line_names B) (vmul_scalar (vdiv_scalar em d) L_sun)) ∧
    self_model_comp g' = self_model_comp g ∧ self_sfh g' = self_sfh g ∧
    self_neb_sfh g' = self_neb_sfh g ∧ self_dust_atten g' = self_dust_atten g ∧
    self_agn_spectrum g' = self_agn_spectrum g ∧ self_uvj g' = self_uvj g ∧
    self_spectrum g' = self_spectrum g ∧ self_photometry g' = self_photometry g ∧
    self_index_names g' = self_index_names g ∧ self_indices g' = self_indices g.
Proof.
  intros Hbc d conv. unfold to_observed_flux. destruct g; simpl in *.
  destruct (dust_enabled cfg); simpl.
  - destruct Hbc as [bc ->]; [done|]. simpl. eexists. split; [done|]. simpl.
    repeat split; done.
  - eexists. split; [done|]. simpl. repeat split; done.
Qed.

(** C7. In the conversion stage: at redshift 0 the divisor [lum_flux] is 1
    and the spectrum, the birth-cloud spectrum (when dust attenuation is
    enabled) and the line fluxes are only multiplied by the solar
    luminosity constant; at a redshift above 0 the spectrum and the
    birth-cloud spectrum are divided by [4 pi d_L^2 (1+z)] and the line
    fluxes by [4 pi d_L^2], with [d_L] the luminosity distance interpolated
    from the table and converted to cm. *)
Theorem luminosity_to_flux_conversion (g : Galaxy) (z : R) (spectrum em : list R) :
  (dust_enabled cfg = true → is_Some (self_spectrum_bc g)) →
  ∃ g', to_observed_flux B cfg g z spectrum em = Ok g' ∧
    (z = 0 →
       self_lum_flux g' = Some 1 ∧
       self_spectrum_full g' = Some ((λ x, x * L_sun) <$> spectrum) ∧
       (dust_enabled cfg = true →
          self_spectrum_bc g' = fmap (M:=list) (λ x, x * L_sun) <$> self_spectrum_bc g) ∧
       self_line_fluxes g' =
         Some (dict_of_zip (line_names B) ((λ x, x * L_sun) <$> em))) ∧
    (0 < z →
       let d_L := 3.086 * 10 ^ 24 * np_interp B (z_array B) (ldist_at_z B) z in
       let dilution := 4 * PI * d_L ^ 2 in
       self_lum_flux g' = Some dilution ∧
       self_spectrum_full g' =
         Some ((λ x, x / (dilution * (1 + z)) * L_sun) <$> spectrum) ∧
       (dust_enabled cfg = true →
          self_spectrum_bc g' =
            fmap (M:=list) (λ x, x / (dilution * (1 + z)) * L_sun) <$> self_spectrum_bc g) ∧
       self_line_fluxes g' =
         Some (dict_of_zip (line_names B) ((λ x, x / dilution * L_sun) <$> em))).
Proof.
  intros Hbc.
  destruct (to_observed_flux_Ok g z spectrum em Hbc)
    as (g' & Hg' & Hlum & Hfull & Hsbc & Hlines & _).
  exists g'. split; [done|]. split.
  - intros ->. rewrite flux_dilution_zero in *.
    replace (1 * (1.0 + 0)) with 1 in * by lra.
    rewrite Hlum, Hfull, Hlines, Hsbc. repeat split.
    + f_equal. unfold vmul_scalar, vdiv_scalar. rewrite <- list_fmap_compose.
      apply fmap_ext_R. intros x. simpl. by rewrite Rdiv_1_r.
    + intros ->. destruct (self_spectrum_bc g); simpl; [|done].
      f_equal. unfold vmul_scalar, vdiv_scalar. rewrite <- list_fmap_compose.
      apply fmap_ext_R. intros x. simpl. by rewrite Rdiv_1_r.
    + do 2 f_equal. unfold vmul_scalar, vdiv_scalar. rewrite <- list_fmap_compose.
      apply fmap_ext_R. intros x. simpl. by rewrite Rdiv_1_r.
  - intros Hz d_L dilution. rewrite (flux_dilution_pos z Hz) in *.
    fold d_L in Hlum, Hfull, Hsbc, Hlines. fold dilution in Hlum, Hfull, Hsbc, Hlines.
    rewrite Hlum, Hfull, Hlines, Hsbc. repeat split.
    + f_equal. unfold vmul_scalar, vdiv_scalar. rewrite <- list_fmap_compose.
      apply fmap_ext_R. intros x. simpl. by replace (1.0 + z) with (1 + z) by lra.
    + intros ->. destruct (self_spectrum_bc g); simpl; [|done].
      f_equal. unfold vmul_scalar, vdiv_scalar. rewrite <- list_fmap_compose.
      apply fmap_ext_R. intros x. simpl. by replace (1.0 + z) with (1 + z) by lra.
    + do 2 f_equal. unfold vmul_scalar, vdiv_scalar. by rewrite <- list_fmap_compose.
Qed.

End Conversion.

(** ** C6: the energy balance of the dust stages *)

Lemma np_trapz_cons2 y0 y1 y x0 x1 x :
  np_trapz (y0 :: y1 :: y) (x0 :: x1 :: x) =
    (x1 - x0) * (y1 + y0) / 2 + np_trapz (y1 :: y) (x1 :: x).
Proof. done. Qed.


Lemma np_trapz_zero (y x : list R) : Forall (λ v, v = 0) y → np_trapz y x = 0.
Proof.
  revert x. induction y as [|y0 y IH]; intros x Hy; [done|].
  destruct y as [|y1 y]; [done|].
  destruct x as [|x0 [|x1 x]]; [done..|].
  rewrite np_trapz_cons2. inversion Hy as [|? ? -> Hy']; subst.
  rewrite IH by done. inversion Hy' as [|? ? -> _]. lra.
Qed.

Lemma vsub_diag (a : list R) : Forall (λ v, v = 0) (vsub a a).
Proof.
  induction a as [|x a IH]; simpl; constructor; [lra | done].
Qed.

Lemma sub_num_present (d : SubDict) (k : string) :
  numeric_if_present d k → has_key d k = true → ∃ r, sub_num d k = Ok r.
Proof.
  intros Hnum Hkey. apply has_key_true in Hkey as [s Hs].
  destruct (Hnum s Hs) as [r ->]. exists r.
  unfold sub_num, getitem. by rewrite Hs.
Qed.

Lemma sub_num_or_default (d : SubDict) (k : string) (default : R) :
  numeric_if_present d k →
  ∃ r, (if has_key d k then sub_num d k else Ok default) = Ok r.
Proof.
  intros Hnum. destruct (has_key d k) eqn:Hkey; [|by exists default].
  by apply sub_num_present.
Qed.

Section EnergyBalance.

Variable B : Bagpipes.
Variable cfg : Config.




End EnergyBalance.

(** ** C8: nothing of the stellar birth-cloud flux below the Lyman limit *)

Section LymanLimit.

Variable B : Bagpipes.
Variable cfg : Config.


Lemma lyman_zeroed_above (spectrum_bc : list R) (i : nat) (w x : R) :
  wavelengths cfg !! i = Some w → spectrum_bc !! i = Some x → ¬ w < 912 →
  lyman_zeroed cfg spectrum_bc !! i = Some x.
Proof.
  intros Hw Hx Hlt. unfold lyman_zeroed, mask_below.
  rewrite lookup_zip_with, Hw, Hx. simpl.
  rewrite Rltb_false by lra. done.
Qed.



End LymanLimit.

(** ** C4: one turn of the line removal *)








Section LineRemoval.

Variable B : Bagpipes.
Variable cfg : Config.


End LineRemoval.

(** ** C9: a name that is not in the line table *)

Section UnknownLine.

Variable B : Bagpipes.
Variable cfg : Config.







End UnknownLine.

(** ** The store: [deepcopy] and the metallicity override *)

Lemma extends_refl h : extends h h.
Proof. by intros l d. Qed.

Lemma extends_trans h1 h2 h3 : extends h1 h2 → extends h2 h3 → extends h1 h3.
Proof. intros H12 H23 l d Hl. by apply H23, H12. Qed.

Lemma extends_app (h ext : Store) : extends h (h ++ ext).
Proof. intros l d Hl. by apply lookup_app_l_Some. Qed.

Lemma extends_length h h' : extends h h' → (length h ≤ length h')%nat.
Proof.
  intros Hext. destruct h as [|d h] using rev_ind; [simpl; lia|].
  clear IHh. specialize (Hext (length h) d).
  rewrite lookup_app_r, Nat.sub_diag in Hext by lia.
  apply lookup_lt_Some in Hext; [|done]. rewrite length_app. simpl. lia.
Qed.

Lemma extends_lookup_total (h h' : Store) l :
  extends h h' → (l < length h)%nat → h' !!! l = h !!! l.
Proof.
  intros Hext Hl. destruct (lookup_lt_is_Some_2 h l Hl) as [d Hd].
  rewrite (list_lookup_total_correct _ _ _ Hd).
  by rewrite (list_lookup_total_correct _ _ _ (Hext _ _ Hd)).
Qed.

Lemma deepcopy_items_spec (h0 : Store) (items : list (string * Entry)) :
  ∀ (h : Store) (memo : gmap nat nat) (h' : Store) (out : list (string * Entry)),
  extends h0 h →
  (∀ l l', memo !! l = Some l' → (length h0 ≤ l')%nat ∧ h !! l' = Some (h0 !!! l)) →
  (∀ k l, (k, ERef l) ∈ items → (l < length h0)%nat) →
  deepcopy_items h memo items = (h', out) →
  extends h h' ∧
  Forall2 (λ x y, x.1 = y.1 ∧ copy_of h0 h' x.2 y.2) items out.
Proof.
  induction items as [|[k e] items IH]; intros h memo h' out Hext Hmemo Hwf Hrun.
  { simpl in Hrun. inversion Hrun; subst. split; [apply extends_refl | constructor]. }
  assert (∀ k l, (k, ERef l) ∈ items → (l < length h0)%nat) as Hwf'.
  { intros k' l' Hin. apply (Hwf k'). apply elem_of_cons. by right. }
  simpl in Hrun. destruct e as [s|l].
  - destruct (deepcopy_items h memo items) as [h1 out1] eqn:Hrest.
    inversion Hrun; subst.
    destruct (IH _ _ _ _ Hext Hmemo Hwf' Hrest) as [Hext' Hall].
    split; [done|]. constructor; [done|done].
  - destruct (memo !! l) as [l'|] eqn:Hl.
    + destruct (deepcopy_items h memo items) as [h1 out1] eqn:Hrest.
      inversion Hrun; subst.
      destruct (IH _ _ _ _ Hext Hmemo Hwf' Hrest) as [Hext' Hall].
      split; [done|]. constructor; [|done]. split; [done|]. simpl.
      destruct (Hmemo _ _ Hl) as [? ?]. split; [done|]. by apply Hext'.
    + destruct (deepcopy_items (h ++ [h !!! l]) (<[l:=length h]> memo) items)
        as [h1 out1] eqn:Hrest.
      inversion Hrun; subst.
      assert (l < length h0)%nat as Hlt by (apply (Hwf k); apply elem_of_cons; by left).
      assert (h !!! l = h0 !!! l) as Hsame by (by apply extends_lookup_total).
      assert (length h0 ≤ length h)%nat as Hlen by (by apply extends_length).
      assert ((h ++ [h !!! l]) !! length h = Some (h0 !!! l)) as Hnew.
      { rewrite lookup_app_r, Nat.sub_diag by lia. simpl. by rewrite Hsame. }
      destruct (IH (h ++ [h !!! l]) (<[l:=length h]> memo) h' out1) as [Hext' Hall].
      * eapply extends_trans; [done|]. apply extends_app.
      * intros l1 l2 Hl12. apply lookup_insert_Some in Hl12 as [[<- <-]|[_ Hl12]].
        -- done.
        -- destruct (Hmemo _ _ Hl12) as [? ?]. split; [done|].
           by apply extends_app.
      * done.
      * done.
      * split.
        -- eapply extends_trans; [|done]. apply extends_app.
        -- constructor; [|done]. split; [done|]. simpl. split; [done|].
           by apply Hext'.
Qed.

Lemma deepcopy_spec (h : Store) (mc : TopDict) (h' : Store) (neb_comp : TopDict) :
  wf_dict h mc →
  deepcopy h mc = (h', neb_comp) →
  extends h h' ∧
  (∀ k, match mc !! k, neb_comp !! k with
        | Some e, Some e' => copy_of h h' e e'
        | None, None => True
        | _, _ => False
        end).
Proof.
  intros Hwf Hrun. unfold deepcopy in Hrun.
  destruct (deepcopy_items h ∅ (map_to_list mc)) as [h1 out] eqn:Hitems.
  inversion Hrun; subst. clear Hrun.
  destruct (deepcopy_items_spec h (map_to_list mc) h ∅ h' out) as [Hext Hall].
  - apply extends_refl.
  - intros l l' Hl. by rewrite lookup_empty in Hl.
  - intros k l Hin. apply elem_of_map_to_list in Hin. by eapply Hwf.
  - done.
  - split; [done|]. intros k.
    assert (out.*1 = (map_to_list mc).*1) as Hkeys.
    { clear -Hall. induction Hall as [|x y ? ? [Hxy _] ? IH]; [done|].
      rewrite !fmap_cons. by rewrite Hxy, IH. }
    assert (NoDup out.*1) as Hnd.
    { rewrite Hkeys. apply NoDup_fst_map_to_list. }
    destruct (mc !! k) as [e|] eqn:Hk.
    + apply elem_of_map_to_list in Hk.
      apply list_elem_of_lookup in Hk as [i Hi].
      destruct (Forall2_lookup_l _ _ _ _ _ Hall Hi) as ([k' e'] & Hi' & Hk' & Hcopy).
      simpl in Hk', Hcopy. subst k'.
      rewrite (elem_of_list_to_map_1 out k e'); [done|done|].
      by eapply list_elem_of_lookup_2.
    + rewrite (not_elem_of_list_to_map_1 out k); [done|].
      rewrite Hkeys. intros Hin. apply list_elem_of_fmap in Hin as ([k' e] & -> & Hin).
      apply elem_of_map_to_list in Hin. simpl in Hk. congruence.
Qed.

Lemma set_metallicity_loop_lookup (v : Scalar) (es : list Entry) (h : Store) (j : nat) :
  foldl (set_metallicity v) h es !! j =
    if decide (ERef j ∈ es) then <["metallicity" := v]> <$> h !! j else h !! j.
Proof.
  revert h. induction es as [|e es IH]; intros h.
  { rewrite decide_False; [done|]. apply not_elem_of_nil. }
  change (foldl (set_metallicity v) h (e :: es))
    with (foldl (set_metallicity v) (set_metallicity v h e) es).
  rewrite IH. destruct e as [s|l]; unfold set_metallicity.
  - destruct (decide (ERef j ∈ es)) as [Hin|Hnot].
    + rewrite decide_True; [done|]. apply elem_of_cons. by right.
    + rewrite decide_False; [done|]. intros Hin.
      apply elem_of_cons in Hin as [?|?]; done.
  - rewrite list_lookup_alter. destruct (decide (l = j)) as [->|Hne].
    + rewrite (decide_True (P := ERef j ∈ ERef j :: es)) by (apply elem_of_cons; by left).
      destruct (decide (ERef j ∈ es)); [|done].
      destruct (h !! j) as [d|]; simpl; [|done].
      by rewrite insert_insert_eq.
    + destruct (decide (ERef j ∈ es)) as [Hin|Hnot].
      * rewrite decide_True; [done|]. apply elem_of_cons. by right.
      * rewrite decide_False; [done|]. intros Hin.
        apply elem_of_cons in Hin as [Heq|?]; [|done]. by inversion Heq.
Qed.

Lemma elem_of_values_map_to_list (m : TopDict) (e : Entry) :
  e ∈ (map_to_list m).*2 ↔ ∃ k, m !! k = Some e.
Proof.
  rewrite list_elem_of_fmap. split.
  - intros ([k e'] & -> & Hin). exists k. by apply elem_of_map_to_list.
  - intros [k Hk]. exists (k, e). split; [done|]. by apply elem_of_map_to_list.
Qed.

(** The copy and the loop together: the objects of the store are all kept
    as they are; the new dictionary reads as the old one with the
    metallicity set in every value that is a dictionary. *)
Lemma nebular_components_spec (v : Scalar) (h : Store) (mc : TopDict)
    (h' : Store) (neb_comp : TopDict) :
  wf_dict h mc →
  nebular_components v h mc = (h', neb_comp) →
  extends h h' ∧
  wf_dict h' neb_comp ∧
  snap h' neb_comp = with_metallicity v <$> snap h mc.
Proof.
  intros Hwf Hrun. unfold nebular_components in Hrun.
  destruct (deepcopy h mc) as [h1 neb] eqn:Hcopy.
  inversion Hrun; subst. clear Hrun.
  destruct (deepcopy_spec h mc h1 neb_comp Hwf Hcopy) as [Hext Hkeys].
  set (es := (map_to_list neb_comp).*2).
  assert (∀ j, ERef j ∈ es → (length h ≤ j)%nat ∧ is_Some (h1 !! j)) as Hnew.
  { intros j Hin. apply elem_of_values_map_to_list in Hin as [k Hk].
    specialize (Hkeys k). rewrite Hk in Hkeys.
    destruct (mc !! k) as [[s|l]|]; simpl in Hkeys; try done.
    destruct Hkeys as [? ->]. done. }
  split; [|split].
  - intros l d Hl. rewrite set_metallicity_loop_lookup.
    rewrite decide_False; [by apply Hext|].
    intros Hin. apply Hnew in Hin as [Hge _].
    apply lookup_lt_Some in Hl. lia.
  - intros k j Hk.
    assert (ERef j ∈ es) as Hin by (apply elem_of_values_map_to_list; eauto).
    apply Hnew in Hin as [_ [d Hd]]. apply lookup_lt_Some in Hd.
    assert (length (foldl (set_metallicity v) h1 es) = length h1) as ->; [|done].
    clear. generalize h1. induction es as [|e es IH]; intros h2; [done|].
    simpl. rewrite IH. destruct e; simpl; [done|]. apply length_alter.
  - apply map_eq. intros k. unfold snap. rewrite !lookup_fmap.
    specialize (Hkeys k).
    destruct (mc !! k) as [e|] eqn:Hmc, (neb_comp !! k) as [e'|] eqn:Hneb;
      try done.
    simpl. f_equal. destruct e as [s|l], e' as [s'|l']; simpl in Hkeys; try done.
    + by subst.
    + destruct Hkeys as [Hge Hl']. simpl. f_equal.
      apply list_lookup_total_correct. rewrite set_metallicity_loop_lookup.
      rewrite decide_True by (apply elem_of_values_map_to_list; eauto).
      by rewrite Hl'.
Qed.

Lemma snap_extends (h h' : Store) (mc : TopDict) :
  wf_dict h mc → extends h h' → snap h' mc = snap h mc.
Proof.
  intros Hwf Hext. apply map_eq. intros k. unfold snap. rewrite !lookup_fmap.
  destruct (mc !! k) as [[s|l]|] eqn:Hk; simpl; [done| |done].
  do 2 f_equal. apply extends_lookup_total; [done|]. by eapply Hwf.
Qed.

Lemma get_sub_extends (h h' : Store) (mc : TopDict) (k : string) :
  wf_dict h mc → extends h h' → get_sub h' mc k = get_sub h mc k.
Proof.
  intros Hwf Hext. unfold get_sub, getitem.
  destruct (mc !! k) as [[s|l]|] eqn:Hk; simpl; [done| |done].
  f_equal. apply extends_lookup_total; [done|]. by eapply Hwf.
Qed.

Lemma wf_dict_extends (h h' : Store) (mc : TopDict) :
  wf_dict h mc → extends h h' → wf_dict h' mc.
Proof.
  intros Hwf Hext k l Hk. apply Hwf in Hk. apply extends_length in Hext. lia.
Qed.

Ltac gal_simpl :=
  cbn [mbind Res_bind mret Res_ret attr fst snd negb andb
       heap emitted warn set_heap
       self_model_comp self_sfh self_neb_sfh self_dust_atten self_agn_spectrum
       self_spectrum_full self_spectrum_bc self_line_fluxes self_lum_flux self_uvj
       self_spectrum self_photometry self_index_names self_indices
       set_model_comp set_sfh set_neb_sfh set_dust_atten set_agn_spectrum
       set_spectrum_full set_spectrum_bc set_line_fluxes set_lum_flux set_uvj
       set_spectrum set_photometry set_index_names set_indices
       opt_set_neb_sfh] in *.

Ltac head_of t :=
  lazymatch t with
  | mbind _ ?m => head_of m
  | attr _ ?o => head_of o
  | match ?o with _ => _ end => head_of o
  | _ => t
  end.

Ltac norm_reads :=
  repeat match goal with
         | Hx : extends ?h ?h1, Hwf : wf_dict ?h ?mc |- _ =>
             progress rewrite (get_sub_extends h h1 mc _ Hwf Hx) in *
         end.

Ltac step H :=
  lazymatch type of H with
  | Ok _ = Ok _ => fail
  | ?X = Ok _ =>
      let m := head_of X in
      let E := fresh "E" in
      destruct m eqn:E;
      repeat match goal with x : (_ * _)%type |- _ => destruct x end;
      gal_simpl; try discriminate H
  end.

Ltac run H :=
  gal_simpl; repeat (step H);
  lazymatch type of H with Ok _ = Ok _ => inversion H; subst; clear H end.

Ltac replay :=
  gal_simpl;
  repeat (match goal with
          | E : ?m = Ok _ |- context [?m] => rewrite E
          | E : ?m = true |- context [?m] => rewrite E
          | E : ?m = false |- context [?m] => rewrite E
          | E : ?m = Some _ |- context [?m] => rewrite E
          | E : ?m = None |- context [?m] => rewrite E
          | E : ?m = (_, _) |- context [?m] => rewrite E
          end; gal_simpl).

(** ** C3: calling [update] twice *)

Section Idempotence.

Variable B : Bagpipes.
Variable cfg : Config.

Lemma observables_idem (w w' : World) (g g1 : Galaxy) (mc : TopDict) (F : list R) :
  observables B cfg w g mc = Ok g1 →
  self_spectrum_full g = Some F →
  self_model_comp g = Some mc →
  wf_dict (heap w) mc →
  extends (heap w) (heap w') →
  observables B cfg w' (set_spectrum_full F g1) mc = Ok g1.
Proof.
  intros Hobs HF Hmc Hwf Hext. unfold observables in *.
  rewrite (snap_extends _ _ _ Hwf Hext).
  destruct g as [f1 f2 f3 f4 f5 f6 f7 f8 f9 f10 f11 f12 f13 f14].
  gal_simpl. subst.
  run Hobs.
  all: gal_simpl.
  all: rewrite ?(get_sub_extends _ _ _ _ Hwf Hext).
  all: replay.
  all: try done.
Qed.

Lemma nebular_grid_replay (h : Store) (g : Galaxy) (mc : TopDict)
    (h1 : Store) (g1 : Galaxy) (grid : list (list R)) :
  nebular_grid B h g mc = Ok (h1, g1, grid) →
  wf_dict h mc →
  ∃ (wr : option Sfh),
    g1 = opt_set_neb_sfh wr g ∧
    extends h h1 ∧
    ∀ (h' : Store) (g' : Galaxy),
      extends h h' → self_sfh g' = self_sfh g →
      ∃ h1', nebular_grid B h' g' mc = Ok (h1', opt_set_neb_sfh wr g', grid) ∧
             extends h' h1'.
Proof.
  intros Hrun Hwf. unfold nebular_grid in *.
  destruct (attr "sfh" (self_sfh g)) as [s|] eqn:Hs; gal_simpl; [|done].
  destruct (get_sub h mc "nebular") as [neb|] eqn:Hneb; gal_simpl; [|done].
  destruct (has_key neb "metallicity") eqn:Hkey.
  - destruct (getitem neb "metallicity") as [v|] eqn:Hv; gal_simpl; [|done].
    destruct (nebular_components v h mc) as [h2 neb_comp] eqn:E.
    destruct (nebular_components_spec _ _ _ _ _ Hwf E) as (Hx & _ & Hsnap).
    rewrite Hsnap in Hrun. inversion Hrun; subst.
    exists (Some (neb_sfh_update B (with_metallicity v <$> snap h mc))).
    split; [done|]. split; [done|].
    intros h' g' Hext Hsfh.
    rewrite (get_sub_extends _ _ _ _ Hwf Hext), Hsfh, Hs, Hneb. gal_simpl.
    rewrite Hkey, Hv. gal_simpl.
    destruct (nebular_components v h' mc) as [h2' neb_comp'] eqn:E'.
    destruct (nebular_components_spec _ _ _ _ _ (wf_dict_extends _ _ _ Hwf Hext) E')
      as (Hx' & _ & Hsnap').
    rewrite Hsnap', (snap_extends _ _ _ Hwf Hext).
    exists h2'. done.
  - inversion Hrun; subst. exists None. split; [done|].
    split; [apply extends_refl|].
    intros h' g' Hext Hsfh.
    rewrite (get_sub_extends _ _ _ _ Hwf Hext), Hsfh, Hs, Hneb. gal_simpl.
    rewrite Hkey. exists h'. split; [done | apply extends_refl].
Qed.

Ltac neb_hook :=
  match goal with
  | E : nebular_grid _ ?h ?g ?mc = Ok (?h1, ?g1, ?grid), Hwf : wf_dict ?h ?mc |- _ =>
      let wr := fresh "wr" in
      let Hx := fresh "Hx" in
      let Hall := fresh "Hall" in
      destruct (nebular_grid_replay h g mc h1 g1 grid E Hwf) as (wr & -> & Hx & Hall);
      clear E; destruct wr; gal_simpl;
      rewrite ?(get_sub_extends _ _ _ _ Hwf Hx) in *
  end.

Lemma cfs_replay (h h' h1 : Store) (g gb g' : Galaxy) (mc : TopDict)
    (c : bool) (r : option (list string)) :
  _calculate_full_spectrum B cfg h g mc c r = Ok (h1, gb) →
  self_model_comp g = Some mc →
  wf_dict h mc →
  extends h h' →
  self_model_comp g' = self_model_comp g →
  self_sfh g' = self_sfh g →
  self_dust_atten g' = self_dust_atten g →
  self_neb_sfh g' = self_neb_sfh gb →
  self_spectrum_bc g' = self_spectrum_bc gb →
  self_line_fluxes g' = self_line_fluxes gb →
  self_lum_flux g' = self_lum_flux gb →
  ∃ (h1' : Store) (F : list R),
    _calculate_full_spectrum B cfg h' g' mc c r = Ok (h1', set_spectrum_full F g') ∧
    self_spectrum_full gb = Some F ∧
    extends h h1 ∧ extends h' h1' ∧
    self_model_comp gb = self_model_comp g ∧
    self_sfh gb = self_sfh g ∧
    self_dust_atten gb = self_dust_atten g.
Proof.
  intros Hrun Hmc Hwf Hext H1 H2 H3 H4 H5 H6 H7.
  unfold _calculate_full_spectrum, nebular_stage, dla_stage, to_observed_flux in *.
  destruct g as [f1 f2 f3 f4 f5 f6 f7 f8 f9 f10 f11 f12 f13 f14].
  destruct g' as [k1 k2 k3 k4 k5 k6 k7 k8 k9 k10 k11 k12 k13 k14].
  gal_simpl. subst f1 k1 k2 k4.
  repeat (step Hrun; try neb_hook; norm_reads).
  all: inversion Hrun; subst; clear Hrun; gal_simpl; subst.
  all: replay.
  all: try (match goal with
            | Hall : ∀ (h' : Store) (g' : Galaxy), _ |- context [nebular_grid B ?h2 ?g2 _] =>
                destruct (Hall h2 g2 Hext eq_refl) as (h1' & Hgrid & Hx');
                rewrite Hgrid;
                pose proof (wf_dict_extends _ _ _ Hwf Hext) as Hwf';
                clear Hgrid; gal_simpl
            end).
  all: repeat (norm_reads; replay).
  all: eexists; eexists; split; [reflexivity|]; repeat split; try done.
  all: eauto using extends_refl, extends_trans.
Qed.

Lemma observables_frame (w : World) (g g1 : Galaxy) (mc : TopDict) :
  observables B cfg w g mc = Ok g1 →
  self_model_comp g1 = self_model_comp g ∧
  self_sfh g1 = self_sfh g ∧
  self_neb_sfh g1 = self_neb_sfh g ∧
  self_dust_atten g1 = self_dust_atten g ∧
  self_spectrum_bc g1 = self_spectrum_bc g ∧
  self_line_fluxes g1 = self_line_fluxes g ∧
  self_lum_flux g1 = self_lum_flux g ∧
  (∀ s, self_sfh g = Some s → unphysical s = true → self_uvj g1 = self_uvj g).
Proof.
  intros Hobs. unfold observables in *.
  destruct g as [f1 f2 f3 f4 f5 f6 f7 f8 f9 f10 f11 f12 f13 f14].
  run Hobs.
  all: gal_simpl; repeat split; try done.
  all: intros s' Hs' Hun; inversion Hs'; subst; rewrite Hun in *; done.
Qed.

Lemma cfs_frame (h h1 : Store) (g gb : Galaxy) (mc : TopDict)
    (c : bool) (r : option (list string)) :
  _calculate_full_spectrum B cfg h g mc c r = Ok (h1, gb) →
  self_model_comp gb = self_model_comp g ∧
  self_sfh gb = self_sfh g ∧
  self_dust_atten gb = self_dust_atten g ∧
  self_agn_spectrum gb = self_agn_spectrum g ∧
  self_uvj gb = self_uvj g ∧
  self_spectrum gb = self_spectrum g ∧
  self_photometry gb = self_photometry g ∧
  self_index_names gb = self_index_names g ∧
  self_indices gb = self_indices g.
Proof.
  intros Hrun.
  unfold _calculate_full_spectrum, nebular_stage, nebular_grid, dla_stage,
    to_observed_flux in *.
  destruct g as [f1 f2 f3 f4 f5 f6 f7 f8 f9 f10 f11 f12 f13 f14].
  run Hrun. all: done.
Qed.

Lemma synthesise_replay (w w' wb : World) (g gb g' : Galaxy) (mc : TopDict)
    (c : bool) (r : option (list string)) :
  synthesise B cfg w g mc c r = Ok (wb, gb) →
  wf_dict (heap w) mc →
  extends (heap w) (heap w') →
  self_model_comp g' = self_model_comp gb →
  self_sfh g' = self_sfh gb →
  self_neb_sfh g' = self_neb_sfh gb →
  self_dust_atten g' = self_dust_atten gb →
  self_spectrum_bc g' = self_spectrum_bc gb →
  self_line_fluxes g' = self_line_fluxes gb →
  self_lum_flux g' = self_lum_flux gb →
  (∀ s, self_sfh gb = Some s → unphysical s = true → self_uvj g' = self_uvj gb) →
  ∃ (wb' : World) (F : list R),
    synthesise B cfg w' g' mc c r = Ok (wb', set_spectrum_full F g') ∧
    self_spectrum_full gb = Some F ∧
    self_model_comp gb = Some mc ∧
    extends (heap w) (heap wb) ∧
    extends (heap w') (heap wb').
Proof.
  intros Hrun Hwf Hext H1 H2 H3 H4 H5 H6 H7 H8.
  unfold synthesise in *.
  rewrite (snap_extends _ _ _ Hwf Hext).
  rewrite (get_sub_extends _ _ _ _ Hwf Hext).
  destruct g as [f1 f2 f3 f4 f5 f6 f7 f8 f9 f10 f11 f12 f13 f14].
  destruct g' as [k1 k2 k3 k4 k5 k6 k7 k8 k9 k10 k11 k12 k13 k14].
  gal_simpl.
  assert (∀ ga : Galaxy,
    self_model_comp ga = Some mc →
    self_sfh ga = Some (sfh_update B (snap (heap w) mc)) →
    (if unphysical (sfh_update B (snap (heap w) mc))
     then Ok (warn (RuntimeWarning unphysical_msg) w,
              set_uvj (np_zeros 3)
                (set_spectrum_full (np_zeros_like (wavelengths cfg)) ga))
     else _calculate_full_spectrum B cfg (heap w) ga mc c r
            ≫= λ '(h, g0), Ok (set_heap h w, g0)) = Ok (wb, gb) →
    self_dust_atten gb = self_dust_atten ga ∧
    ∃ (wb' : World) (F : list R),
      (if unphysical (sfh_update B (snap (heap w) mc))
       then Ok (warn (RuntimeWarning unphysical_msg) w',
                set_uvj (np_zeros 3)
                  (set_spectrum_full (np_zeros_like (wavelengths cfg))
                     (Build_Galaxy (Some mc) (Some (sfh_update B (snap (heap w) mc)))
                        k3 (self_dust_atten ga) k5 k6 k7 k8 k9 k10 k11 k12 k13 k14)))
       else _calculate_full_spectrum B cfg (heap w')
              (Build_Galaxy (Some mc) (Some (sfh_update B (snap (heap w) mc)))
                 k3 (self_dust_atten ga) k5 k6 k7 k8 k9 k10 k11 k12 k13 k14) mc c r
              ≫= λ '(h, g0), Ok (set_heap h w', g0))
        = Ok (wb', Build_Galaxy k1 k2 k3 k4 k5 (Some F) k7 k8 k9 k10 k11 k12 k13 k14) ∧
      self_spectrum_full gb = Some F ∧
      self_model_comp gb = Some mc ∧
      extends (heap w) (heap wb) ∧
      extends (heap w') (heap wb')) as Hbranch.
  { intros ga Hmc Hsfh Hbr.
    destruct (unphysical (sfh_update B (snap (heap w) mc))) eqn:Hun.
    - injection Hbr as <- <-. destruct ga. gal_simpl. subst.
      rewrite (H8 _ eq_refl Hun). split; [done|].
      eexists _, _. split; [reflexivity|]. repeat split; try done.
      all: apply extends_refl.
    - destruct (_calculate_full_spectrum B cfg (heap w) ga mc c r)
        as [[h1 g0]|] eqn:Hcfs; gal_simpl; [|done].
      injection Hbr as <- <-.
      destruct (cfs_frame _ _ _ _ _ _ _ Hcfs) as (Hf1 & Hf2 & Hf3 & _).
      split; [done|].
      destruct (cfs_replay (heap w) (heap w') h1 ga g0
                   (Build_Galaxy (Some mc) (Some (sfh_update B (snap (heap w) mc)))
                      k3 (self_dust_atten ga) k5 k6 k7 k8 k9 k10 k11 k12 k13 k14)
                   mc c r Hcfs Hmc Hwf Hext (eq_sym Hmc) (eq_sym Hsfh) eq_refl
                   H3 H5 H6 H7)
        as (h1' & F & Hcfs' & HF & Hx & Hx' & _).
      rewrite Hcfs'. gal_simpl.
      exists (set_heap h1' w'), F. rewrite H1, H2, H4, Hf1, Hf2, Hf3, Hmc, Hsfh.
      repeat split; done. }
  step Hrun.
  - step Hrun.
    match type of Hrun with
    | context [_calculate_full_spectrum B cfg (heap w) ?ga mc c r] =>
        destruct (Hbranch ga eq_refl eq_refl Hrun) as (Hda & wb' & F & Hgoal & ?)
    end.
    gal_simpl. exists wb', F. split; [exact Hgoal|done].
  - match type of Hrun with
    | context [_calculate_full_spectrum B cfg (heap w) ?ga mc c r] =>
        destruct (Hbranch ga eq_refl eq_refl Hrun) as (Hda & wb' & F & Hgoal & ?)
    end.
    gal_simpl. exists wb', F. split; [|done].
    rewrite <- Hgoal. rewrite H4, Hda. done.
Qed.

(** C3. When a call of [update] returns, a second call with the same
    arguments returns too and leaves the instance exactly as the first call
    left it: every attribute (the full spectrum, the resampled spectrum, the
    line fluxes, the photometry, the UVJ magnitudes, the index values, and
    the others) has the value it had after the first call. *)
Theorem update_twice (w w1 : World) (g g1 : Galaxy) (mc : TopDict)
    (cont_only : bool) (rm_line : option (list string)) :
  wf_dict (heap w) mc →
  update B cfg w g mc cont_only rm_line = Ok (w1, g1) →
  ∃ w2, update B cfg w1 g1 mc cont_only rm_line = Ok (w2, g1).
Proof.
  intros Hwf Hrun. unfold update in *.
  destruct (synthesise B cfg w g mc cont_only rm_line) as [[wb gb]|] eqn:Hsyn;
    gal_simpl; [|done].
  destruct (observables B cfg wb gb mc) as [g1'|] eqn:Hobs; gal_simpl; [|done].
  inversion Hrun; subst; clear Hrun.
  destruct (observables_frame _ _ _ _ Hobs)
    as (F1 & F2 & F3 & F4 & F5 & F6 & F7 & F8).
  destruct (synthesise_replay w w w1 g gb gb mc cont_only rm_line Hsyn Hwf
              (extends_refl _) eq_refl eq_refl eq_refl eq_refl eq_refl eq_refl
              eq_refl (λ _ _ _, eq_refl))
    as (_ & F & _ & HF & Hmc & Hx & _).
  destruct (synthesise_replay w w1 w1 g gb g1 mc cont_only rm_line Hsyn Hwf
              Hx F1 F2 F3 F4 F5 F6 F7 F8)
    as (wb' & F' & Hsyn' & HF' & _ & _ & Hx').
  rewrite Hsyn'. gal_simpl.
  assert (F' = F) as -> by congruence.
  rewrite (observables_idem w1 wb' gb g1 mc F Hobs HF Hmc
             (wf_dict_extends _ _ _ Hwf Hx) Hx').
  gal_simpl. by exists wb'.
Qed.
End Idempotence.
(** ** The small instance is well formed *)

Lemma wf_demo_components z : wf_dict demo_heap (demo_components z).
Proof.
  intros k l Hk. unfold demo_components in Hk.
  repeat (apply lookup_insert_Some in Hk as [[_ Hk]|[_ Hk]];
          [inversion Hk; subst; simpl; lia|]).
  apply lookup_singleton_Some in Hk as [_ Hk]. inversion Hk; subst; simpl; lia.
Qed.

(** ** C5: the metallicity override of the nebular grid *)

Section MetallicityOverride.

Variable B : Bagpipes.



End MetallicityOverride.



(** ** C1: the wavelengths handed to [addAbs] *)

Section DampedAbsorber.

Variable cfg : Config.

Lemma dla_stage_spec (h : Store) (g : Galaxy) (mc : TopDict) (spectrum : list R)
    (z : R) (dla : SubDict) (t zabs : R) :
  has_key mc "dla" = true → self_model_comp g = Some mc →
  get_num mc "redshift" = Ok z → get_sub h mc "dla" = Ok dla →
  sub_num dla "t" = Ok t → sub_num dla "zabs" = Ok zabs →
  dla_stage cfg h g mc spectrum
    = Ok (vmul spectrum (addAbs ((λ w, w * z) <$> wavelengths cfg) t zabs)).
Proof.
  intros Hkey Hmc Hz Hdla Ht Hzabs. unfold dla_stage.
  rewrite Hkey, Hmc. gal_simpl. rewrite Hz. gal_simpl.
  rewrite Hdla. gal_simpl. rewrite Ht. gal_simpl. by rewrite Hzabs.
Qed.

End DampedAbsorber.

(** The Gaussian core is negligible in the wings: [exp (- P) <= 4 / P^2]. *)
Lemma exp_neg_wing (P : R) : 0 < P → exp (- P) * (P * P) <= 4.
Proof.
  intros HP.
  assert (1 + P / 2 < exp (P / 2)) as Hhalf by (apply exp_ineq1; lra).
  assert (exp P = exp (P / 2) * exp (P / 2)) as Hsq.
  { rewrite <- exp_plus. f_equal. lra. }
  assert (exp (- P) * exp P = 1) as Hinv.
  { rewrite <- exp_plus. replace (- P + P) with 0 by lra. apply exp_0. }
  pose proof (exp_pos (- P)) as Hpos.
  assert (P * P <= 4 * exp P) as Hle by (rewrite Hsq; nra).
  nra.
Qed.

(** In the wings, [H a x] is the Lorentzian term [K / x^2], with
    [K = a / sqrt PI], up to a factor between 1/2 and 3. *)
Lemma H_wing (a x : R) :
  1 <= a / sqrt PI → 100 <= x ^ 2 →
  a / sqrt PI * / (x ^ 2) / 2 <= H a x <= 3 * (a / sqrt PI) * / (x ^ 2).
Proof.
  intros HK HP. unfold H. cbv zeta.
  set (K := a / sqrt PI) in *. set (P := x ^ 2) in *.
  set (E := exp (- P)).
  assert (0 < P) as HP0 by lra.
  pose proof (exp_neg_wing P HP0) as HE. fold E in HE.
  pose proof (exp_pos (- P)) as HE0. fold E in HE0.
  set (u := / P).
  assert (P * u = 1) as Hu by (unfold u; apply Rinv_r; lra).
  assert (0 < u) as Hu0 by (unfold u; apply Rinv_0_lt_compat; lra).
  assert (u <= / 100) as Hu1.
  { unfold u. apply Rinv_le_contravar; lra. }
  assert (E <= 4 * (u * u)) as HE1.
  { replace E with (E * (P * P) * (u * u)).
    - apply Rmult_le_compat_r; nra.
    - replace (E * (P * P) * (u * u)) with (E * ((P * u) * (P * u))) by ring.
      rewrite Hu. ring. }
  replace (K / P) with (K * u) by (unfold Rdiv; done).
  fold u.
  replace (4.0 * P ^ 2 + 7.0 * P + 4.0 + 1.5 * u)
    with (4 * (P * P) + 7 * P + 4 + 3 / 2 * u) by lra.
  replace (1.5 * u) with (3 / 2 * u) by lra.
  replace 1.0 with 1 by lra.
  set (R0 := 4 * (P * P) + 7 * P + 4 + 3 / 2 * u).
  assert (0 <= E ^ 2 * R0 * u) as Hlow.
  { unfold R0. apply Rmult_le_pos; [|lra]. apply Rmult_le_pos; nra. }
  assert (E ^ 2 * R0 <= / 2) as Hup.
  { assert (E ^ 2 <= 16 * (u * u) * (u * u)) as HE2 by nra.
    assert (R0 * ((u * u) * (u * u)) <= 17 * (u * u)) as HR.
    { unfold R0.
      replace ((4 * (P * P) + 7 * P + 4 + 3 / 2 * u) * (u * u * (u * u)))
        with (4 * ((P * u) * (P * u)) * (u * u) + 7 * (P * u) * (u * u * u)
              + 4 * (u * u * (u * u)) + 3 / 2 * (u * (u * u * (u * u)))) by field.
      rewrite Hu.
      assert (u * u * u <= u * u) by nra.
      assert (u * u * (u * u) <= u * u) by nra.
      assert (u * (u * u * (u * u)) <= u * u) by nra.
      nra. }
    assert (0 < R0) by (unfold R0; nra).
    assert (E ^ 2 * R0 <= 16 * (u * u) * (u * u) * R0) by nra.
    assert (u * u <= / 10000) by nra.
    nra. }
  assert (0 <= K * u) as HKu by (apply Rmult_le_pos; lra).
  assert (0 <= E ^ 2 * R0) as Hlow'.
  { apply Rmult_le_pos; [nra | unfold R0; nra]. }
  clearbody R0 E u K P.
  split.
  - assert (0 <= K * u * (/ 2 - E ^ 2 * R0)) by (apply Rmult_le_pos; lra).
    assert (0 <= K * u * (3 / 2 * u)) by (apply Rmult_le_pos; lra).
    lra.
  - assert (0 <= K * u * (E ^ 2 * R0)) by (apply Rmult_le_pos; lra).
    assert (K * u * (3 / 2 * u) <= K * u * (3 / 2 * / 100))
      by (apply Rmult_le_compat_l; lra).
    assert (4 * (u * u) <= K * u / 2) by nra.
    lra.
Qed.

Lemma sqrt_PI_bounds : 0 < sqrt PI <= 2.
Proof.
  pose proof PI_RGT_0 as H0. pose proof PI_4 as H4.
  pose proof (sqrt_lt_R0 PI H0) as Hs.
  pose proof (sqrt_sqrt PI (Rlt_le _ _ H0)) as Hsq.
  split; [done|]. nra.
Qed.

(** The damping parameter of [addAbs] over [sqrt PI] is at least one. *)
Lemma addAbs_damping :
  1 <= 1215.67 * 1.0e-8 * 6.265e8 / (4.0 * PI * 1) / sqrt PI.
Proof.
  pose proof PI_RGT_0 as H0. pose proof PI_4 as H4.
  destruct sqrt_PI_bounds as [Hs Hs2].
  set (a := 1215.67 * 1.0e-8 * 6.265e8 / (4.0 * PI * 1)).
  assert (/ 16 <= / (4.0 * PI * 1)) as Hi by (apply Rinv_le_contravar; lra).
  assert (400 <= a) as Ha by (unfold a, Rdiv; lra).
  assert (/ 2 <= / sqrt PI) as Hi' by (apply Rinv_le_contravar; lra).
  unfold Rdiv at 1. clearbody a. nra.
Qed.

(** At a pixel in the far wing for the first grid and a thousand times
    nearer to the line for the second, [addAbs] absorbs strictly more on
    the second grid. *)
Lemma addAbs_wing_differs (wl1 wl2 : list R) (t zabs : R) (i : nat) (w1 w2 : R) :
  0 < t →
  wl1 !! i = Some w1 → wl2 !! i = Some w2 →
  (w1 / (zabs + 1.0) - 1215.67) / (1 / 2.998e10 * 1215.67) + 0.01 <= - 1e10 →
  - 1e9 <= (w2 / (zabs + 1.0) - 1215.67) / (1 / 2.998e10 * 1215.67) + 0.01 <= - 10 →
  ∃ T1 T2,
    addAbs wl1 t zabs !! i = Some T1 ∧ addAbs wl2 t zabs !! i = Some T2 ∧ T2 < T1.
Proof.
  intros Ht H1 H2 Hx1 Hx2. unfold addAbs. cbv zeta.
  rewrite !list_lookup_fmap, H1, H2. simpl.
  eexists _, _. split; [reflexivity|]. split; [reflexivity|].
  set (x1 := (w1 / (zabs + 1.0) - 1215.67) / (1 / 2.998e10 * 1215.67) + 0.01) in *.
  set (x2 := (w2 / (zabs + 1.0) - 1215.67) / (1 / 2.998e10 * 1215.67) + 0.01) in *.
  set (a := 1215.67 * 1.0e-8 * 6.265e8 / (4.0 * PI * 1)).
  pose proof addAbs_damping as HK. fold a in HK.
  set (Ca := sqrt PI * 4.8032e-10 ^ 2 * 0.416 * 1215.67 * 1e-8 / 9.1095e-28
             / 2.998e10 / 1).
  assert (0 < Ca) as HCa.
  { unfold Ca. destruct sqrt_PI_bounds as [Hs _].
    repeat (apply Rdiv_lt_0_compat; [|lra]).
    repeat (apply Rmult_lt_0_compat; try lra). }
  assert (1e20 <= x1 ^ 2) as HP1 by nra.
  assert (100 <= x2 ^ 2 <= 1e18) as HP2 by nra.
  destruct (H_wing a x1 HK) as [_ Hup]; [lra|].
  destruct (H_wing a x2 HK) as [Hlow _]; [lra|].
  assert (/ (x1 ^ 2) <= / 1e20) as Hu1 by (apply Rinv_le_contravar; lra).
  assert (/ 1e18 <= / (x2 ^ 2)) as Hu2 by (apply Rinv_le_contravar; lra).
  assert (H a x1 < H a x2) as Hlt.
  { set (K := a / sqrt PI) in *.
    assert (3 * K * / (x1 ^ 2) <= 3 * K * / 1e20)
      by (apply Rmult_le_compat_l; lra).
    assert (K * / 1e18 <= K * / (x2 ^ 2))
      by (apply Rmult_le_compat_l; lra).
    lra. }
  apply exp_increasing, Ropp_lt_contravar.
  apply Rmult_lt_compat_l; [|done].
  apply Rmult_lt_0_compat; done.
Qed.

Lemma conv_lookup (s : list R) (d : R) (i : nat) (x : R) :
  s !! i = Some x →
  vmul_scalar (vdiv_scalar s d) L_sun !! i = Some (x / d * L_sun).
Proof.
  intros Hx. unfold vmul_scalar, vdiv_scalar. by rewrite !list_lookup_fmap, Hx.
Qed.

Lemma vmul_lookup (a b : list R) (i : nat) (x y : R) :
  a !! i = Some x → b !! i = Some y → vmul a b !! i = Some (x * y).
Proof.
  intros Ha Hb. unfold vmul. by rewrite lookup_zip_with, Ha, Hb.
Qed.

(** C1. For a galaxy at redshift 1 with a ["dla"] entry of column density
    [1e20] at redshift [0.5], the stage multiplies the spectrum by [addAbs]
    evaluated at the grid times the redshift, which is the rest-frame grid
    itself; at the first pixel this transmission is strictly larger than
    the transmission at the observed-frame grid, the grid times
    [1 + redshift]; so the result of the stage, and the full spectrum that
    [_calculate_full_spectrum] assigns, are not the ones obtained with the
    transmission at the observed-frame wavelengths. *)
Theorem dla_absorber_sees_rest_grid_times_redshift :
  let cfg := demo_plain_config in
  let mc := dla_components in
  let g := set_sfh (sfh_update demo_bagpipes (snap dla_heap mc))
             (set_model_comp mc fresh_galaxy) in
  let rest := (λ w, w * 1) <$> wavelengths cfg in
  let observed := (λ w, w * (1 + 1)) <$> wavelengths cfg in
  let pre := vmul (vadd [2; 2; 2; 2] [1; 1; 1; 1]) (igm_trans demo_bagpipes 1) in
  let conv s :=
    vmul_scalar (vdiv_scalar s (flux_dilution demo_bagpipes 1 * (1.0 + 1))) L_sun in
  rest = wavelengths cfg ∧
  (∃ T_rest T_observed,
     addAbs rest 1e20 0.5 !! 0%nat = Some T_rest ∧
     addAbs observed 1e20 0.5 !! 0%nat = Some T_observed ∧
     T_observed < T_rest) ∧
  dla_stage cfg dla_heap g mc pre = Ok (vmul pre (addAbs rest 1e20 0.5)) ∧
  dla_stage cfg dla_heap g mc pre ≠ Ok (vmul pre (addAbs observed 1e20 0.5)) ∧
  ∃ g' full,
    _calculate_full_spectrum demo_bagpipes cfg dla_heap g mc false None
      = Ok (dla_heap, g') ∧
    self_spectrum_full g' = Some full ∧
    full = conv (vmul pre (addAbs rest 1e20 0.5)) ∧
    full ≠ conv (vmul pre (addAbs observed 1e20 0.5)).
Proof.
  intros cfg mc g rest observed pre conv.
  assert (∃ T_rest T_observed,
     addAbs rest 1e20 0.5 !! 0%nat = Some T_rest ∧
     addAbs observed 1e20 0.5 !! 0%nat = Some T_observed ∧
     T_observed < T_rest) as (T1 & T2 & HT1 & HT2 & Hlt).
  { apply (addAbs_wing_differs rest observed 1e20 0.5 0 (900 * 1) (900 * (1 + 1)));
      [lra | reflexivity | reflexivity | lra | lra]. }
  assert (pre !! 0%nat = Some ((2 + 1) * 1)) as Hpre by reflexivity.
  assert (dla_stage cfg dla_heap g mc pre = Ok (vmul pre (addAbs rest 1e20 0.5)))
    as Hstage.
  { apply (dla_stage_spec _ _ _ _ _ 1 {[ "t" := Num 1e20; "zabs" := Num 0.5 ]} 1e20 0.5);
      reflexivity. }
  assert (vmul pre (addAbs rest 1e20 0.5)
            ≠ vmul pre (addAbs observed 1e20 0.5)) as Hne.
  { intros Heq. apply (f_equal (λ l : list R, l !! 0%nat)) in Heq.
    rewrite (vmul_lookup _ _ _ _ _ Hpre HT1), (vmul_lookup _ _ _ _ _ Hpre HT2) in Heq.
    injection Heq as Heq. lra. }
  split.
  { unfold rest. simpl. by rewrite !Rmult_1_r. }
  split; [by exists T1, T2|]. split; [exact Hstage|]. split.
  { rewrite Hstage. intros Heq.
    exact (Hne (f_equal (λ r : Res (list R),
                           match r with Ok l => l | Raise _ => [] end) Heq)). }
  eexists _, _. split; [reflexivity|]. split; [reflexivity|]. split; [reflexivity|].
  intros Heq. apply (f_equal (λ l : list R, l !! 0%nat)) in Heq.
  unfold conv in Heq.
  rewrite (conv_lookup _ _ _ _ (vmul_lookup _ _ _ _ _ Hpre HT1)),
          (conv_lookup _ _ _ _ (vmul_lookup _ _ _ _ _ Hpre HT2)) in Heq.
  injection Heq as Heq.
  rewrite (flux_dilution_pos demo_bagpipes 1) in Heq by lra.
  change (np_interp demo_bagpipes _ _ 1) with 1 in Heq.
  pose proof PI_RGT_0 as Hpi.
  assert (0 < 4 * PI * (3.086 * 10 ^ 24 * 1) ^ 2 * (1.0 + 1)) as Hd.
  { apply Rmult_lt_0_compat; [|lra]. apply Rmult_lt_0_compat; [lra|].
    apply pow_lt. apply Rmult_lt_0_compat; [|lra]. apply Rmult_lt_0_compat; [lra|].
    apply pow_lt. lra. }
  assert (0 < L_sun) as HL.
  { unfold L_sun. apply Rmult_lt_0_compat; [lra|]. apply pow_lt. lra. }
  set (d := 4 * PI * (3.086 * 10 ^ 24 * 1) ^ 2 * (1.0 + 1)) in *.
  apply Rmult_eq_reg_r in Heq; [|lra].
  apply Rmult_eq_reg_r in Heq; [|apply Rinv_neq_0_compat; lra].
  lra.
Qed.

(** ** C2 and C10: an unphysical star-formation history *)

Lemma mapM_Ok {A C} (f : A → C) (l : list A) :
  mapM (λ x, Ok (f x)) l = Ok (f <$> l).
Proof.
  induction l as [|x l IH]; [done|]. simpl. rewrite IH. done.
Qed.

Lemma np_zeros_like_zero (a : list R) :
  length (np_zeros_like a) = length a ∧ Forall (λ x, x = 0) (np_zeros_like a).
Proof.
  unfold np_zeros_like. split; [by rewrite length_fmap|].
  induction a; simpl; constructor; done.
Qed.

Section Unphysical.

Variable B : Bagpipes.
Variable cfg : Config.

Lemma get_sub_ref (h : Store) (mc : TopDict) (k : string) (l : nat) :
  mc !! k = Some (ERef l) → get_sub h mc k = Ok (h !!! l).
Proof. intros Hk. unfold get_sub, getitem. by rewrite Hk. Qed.

Lemma update_unphysical_inv (w w' : World) (g g' : Galaxy) (mc : TopDict)
    (c : bool) (r : option (list string)) :
  unphysical (sfh_update B (snap (heap w) mc)) = true →
  update B cfg w g mc c r = Ok (w', g') →
  w' = warn (RuntimeWarning unphysical_msg) w ∧
  self_neb_sfh g' = self_neb_sfh g ∧
  self_spectrum_bc g' = self_spectrum_bc g ∧
  self_line_fluxes g' = self_line_fluxes g ∧
  self_lum_flux g' = self_lum_flux g ∧
  self_uvj g' = Some (np_zeros 3) ∧
  (agn_enabled cfg = false →
     self_spectrum_full g' = Some (np_zeros_like (wavelengths cfg))) ∧
  (agn_enabled cfg = true →
     ∃ param z,
       get_sub (heap w) mc "agn" = Ok param ∧ get_num mc "redshift" = Ok z ∧
       self_spectrum_full g' =
         Some (vadd (np_zeros_like (wavelengths cfg))
                 (vdiv_scalar (vmul (agn_update B param) (igm_trans B z)) (1.0 + z)))).
Proof.
  intros Hun Hrun. unfold update, synthesise, observables in Hrun.
  destruct g as [f1 f2 f3 f4 f5 f6 f7 f8 f9 f10 f11 f12 f13 f14].
  gal_simpl.
  destruct (dust_enabled cfg);
    [destruct (get_sub (heap w) mc "dust"); gal_simpl; [|done] |];
    gal_simpl; rewrite Hun in Hrun; run Hrun.
  all: try match goal with
           | E : negb (unphysical _) = true |- _ => rewrite Hun in E; discriminate E
           end.
  all: gal_simpl; repeat split; try done.
  all: intros _; eexists _, _; repeat split; reflexivity.
Qed.

Lemma update_unphysical_Ok (w : World) (g : Galaxy) (mc : TopDict)
    (c : bool) (r : option (list string)) (z : R) :
  unphysical (sfh_update B (snap (heap w) mc)) = true →
  (dust_enabled cfg = true → ∃ l, mc !! "dust" = Some (ERef l)) →
  (agn_enabled cfg = true → ∃ l, mc !! "agn" = Some (ERef l)) →
  get_num mc "redshift" = Ok z →
  (is_Some (index_list cfg) → is_Some (spec_wavs cfg)) →
  ∃ g', update B cfg w g mc c r = Ok (warn (RuntimeWarning unphysical_msg) w, g').
Proof.
  intros Hun Hdust Hagn Hz Hidx. unfold update, synthesise, observables.
  destruct g as [f1 f2 f3 f4 f5 f6 f7 f8 f9 f10 f11 f12 f13 f14].
  destruct (dust_enabled cfg), (agn_enabled cfg), (spec_wavs cfg),
    (filt_list cfg), (index_list cfg); gal_simpl.
  all: try (destruct Hidx as [? ?]; [done|]; discriminate).
  all: try (destruct Hdust as [ld Hld]; [done|]).
  all: try (destruct Hagn as [la Hla]; [done|]).
  all: repeat (first [ rewrite (get_sub_ref _ _ _ _ Hld)
                     | rewrite (get_sub_ref _ _ _ _ Hla)
                     | rewrite Hun
                     | rewrite Hz
                     | rewrite mapM_Ok ]; gal_simpl).
  all: by eexists.
Qed.

(** C2 (amended). When the star-formation history is unphysical and the
    model components hold what the instance reads (a ["dust"] and an
    ["agn"] dictionary when these are enabled, a numeric ["redshift"]; an
    index list only together with an output grid), [update] returns with
    one warning added; afterwards the UVJ magnitudes are three zeros in
    every configuration; the full spectrum is an all-zero array over the
    grid when no AGN is enabled, and the zero array plus the AGN spectrum
    times the IGM transmission over [1 + z] when one is. *)
Theorem unphysical_update_returns (w : World) (g : Galaxy) (mc : TopDict)
    (cont_only : bool) (rm_line : option (list string)) (z : R) :
  unphysical (sfh_update B (snap (heap w) mc)) = true →
  (dust_enabled cfg = true → ∃ l, mc !! "dust" = Some (ERef l)) →
  (agn_enabled cfg = true → ∃ l, mc !! "agn" = Some (ERef l)) →
  get_num mc "redshift" = Ok z →
  (is_Some (index_list cfg) → is_Some (spec_wavs cfg)) →
  ∃ g',
    update B cfg w g mc cont_only rm_line
      = Ok (warn (RuntimeWarning unphysical_msg) w, g') ∧
    self_uvj g' = Some [0; 0; 0] ∧
    (agn_enabled cfg = false →
       ∃ full, self_spectrum_full g' = Some full ∧
               length full = length (wavelengths cfg) ∧
               Forall (λ x, x = 0) full) ∧
    (agn_enabled cfg = true →
       ∃ param,
         get_sub (heap w) mc "agn" = Ok param ∧
         self_spectrum_full g' =
           Some (vadd (np_zeros_like (wavelengths cfg))
                   (vdiv_scalar (vmul (agn_update B param) (igm_trans B z))
                      (1.0 + z)))).
Proof.
  intros Hun Hdust Hagn Hz Hidx.
  destruct (update_unphysical_Ok w g mc cont_only rm_line z Hun Hdust Hagn Hz Hidx)
    as [g' Hrun].
  destruct (update_unphysical_inv _ _ _ _ _ _ _ Hun Hrun)
    as (_ & _ & _ & _ & _ & Huvj & Hzero & Hsum).
  exists g'. split; [done|]. split; [done|]. split.
  - intros Hoff. exists (np_zeros_like (wavelengths cfg)).
    split; [by apply Hzero|]. apply np_zeros_like_zero.
  - intros Hon. destruct (Hsum Hon) as (param & z' & Hparam & Hz' & Hfull).
    exists param. split; [done|]. rewrite Hz in Hz'. by inversion Hz'; subst.
Qed.

Lemma update_unphysical_others (w w' : World) (g g' : Galaxy) (mc : TopDict)
    (c : bool) (r : option (list string)) :
  unphysical (sfh_update B (snap (heap w) mc)) = true →
  update B cfg w g mc c r = Ok (w', g') →
  self_model_comp g' = Some mc ∧
  self_sfh g' = Some (sfh_update B (snap (heap w) mc)) ∧
  (agn_enabled cfg = true →
     ∃ param z,
       get_sub (heap w) mc "agn" = Ok param ∧ get_num mc "redshift" = Ok z ∧
       self_agn_spectrum g' = Some (vmul (agn_update B param) (igm_trans B z))) ∧
  (dust_enabled cfg = false → self_dust_atten g' = self_dust_atten g) ∧
  (agn_enabled cfg = false → self_agn_spectrum g' = self_agn_spectrum g) ∧
  (spec_wavs cfg = None → self_spectrum g' = self_spectrum g) ∧
  (filt_list cfg = None → self_photometry g' = self_photometry g) ∧
  (index_list cfg = None →
     self_index_names g' = self_index_names g ∧ self_indices g' = self_indices g).
Proof.
  intros Hun Hrun. unfold update, synthesise, observables in Hrun.
  destruct g as [f1 f2 f3 f4 f5 f6 f7 f8 f9 f10 f11 f12 f13 f14].
  gal_simpl.
  destruct (dust_enabled cfg);
    [destruct (get_sub (heap w) mc "dust"); gal_simpl; [|done] |];
    gal_simpl; rewrite Hun in Hrun; run Hrun.
  all: gal_simpl.
  all: split; [done|]; split; [done|].
  all: split; [first [intros _; eexists _, _; repeat split; reflexivity | intros [=]]|].
  all: repeat match goal with |- _ ∧ _ => split end.
  all: first [done | intros [=] | intros _; split; done].
Qed.

(** C10 (amended). When [update] is called with an unphysical
    star-formation history and returns: the line fluxes, the birth-cloud
    spectrum, [lum_flux] and [neb_sfh] are not written, they are those of
    the instance before the call, unassigned if they were unassigned; the
    UVJ magnitudes are written to three zeros and the full spectrum to the
    zero array, to which, with an AGN, the AGN spectrum times the IGM
    transmission over [1 + z] is then added; the call also writes
    [model_comp] and [sfh], and the AGN spectrum with an AGN; and it leaves
    alone [dust_atten] without dust, the AGN spectrum without an AGN, the
    resampled spectrum without an output grid, the photometry without a
    filter list and the indices without an index list. *)
Theorem unphysical_update_frame (w w' : World) (g g' : Galaxy) (mc : TopDict)
    (cont_only : bool) (rm_line : option (list string)) :
  unphysical (sfh_update B (snap (heap w) mc)) = true →
  update B cfg w g mc cont_only rm_line = Ok (w', g') →
  (self_line_fluxes g' = self_line_fluxes g ∧
   self_spectrum_bc g' = self_spectrum_bc g ∧
   self_lum_flux g' = self_lum_flux g ∧
   self_neb_sfh g' = self_neb_sfh g ∧
   (self_line_fluxes g = None → self_line_fluxes g' = None) ∧
   (self_spectrum_bc g = None → self_spectrum_bc g' = None)) ∧
  (self_uvj g' = Some [0; 0; 0] ∧
   (agn_enabled cfg = false →
      self_spectrum_full g' = Some (np_zeros_like (wavelengths cfg))) ∧
   (agn_enabled cfg = true →
      ∃ param z,
        get_sub (heap w) mc "agn" = Ok param ∧ get_num mc "redshift" = Ok z ∧
        self_agn_spectrum g' = Some (vmul (agn_update B param) (igm_trans B z)) ∧
        self_spectrum_full g' =
          Some (vadd (np_zeros_like (wavelengths cfg))
                  (vdiv_scalar (vmul (agn_update B param) (igm_trans B z))
                     (1.0 + z))))) ∧
  (self_model_comp g' = Some mc ∧
   self_sfh g' = Some (sfh_update B (snap (heap w) mc))) ∧
  ((dust_enabled cfg = false → self_dust_atten g' = self_dust_atten g) ∧
   (agn_enabled cfg = false → self_agn_spectrum g' = self_agn_spectrum g) ∧
   (spec_wavs cfg = None → self_spectrum g' = self_spectrum g) ∧
   (filt_list cfg = None → self_photometry g' = self_photometry g) ∧
   (index_list cfg = None →
      self_index_names g' = self_index_names g ∧ self_indices g' = self_indices g)).
Proof.
  intros Hun Hrun.
  destruct (update_unphysical_inv _ _ _ _ _ _ _ Hun Hrun)
    as (_ & Hneb & Hbc & Hlines & Hlum & Huvj & Hzero & Hsum).
  destruct (update_unphysical_others _ _ _ _ _ _ _ Hun Hrun)
    as (Hmc & Hsfh & Hagn & Hrest).
  split; [|split; [|split]].
  - repeat split; try done.
    + intros Hnone. by rewrite Hlines.
    + intros Hnone. by rewrite Hbc.
  - split; [done|]. split; [done|].
    intros Hon. destruct (Hsum Hon) as (param & z & Hparam & Hz & Hfull).
    destruct (Hagn Hon) as (param' & z' & Hparam' & Hz' & Hspec).
    exists param, z. rewrite Hparam in Hparam'. rewrite Hz in Hz'.
    injection Hparam' as <-. injection Hz' as <-. done.
  - done.
  - done.
Qed.

End Unphysical.

(** ** C4: the loop over the requested lines *)

Section LineRemovalLoop.

Variable B : Bagpipes.
Variable cfg : Config.







End LineRemovalLoop.

(** ** The statements at the small instance *)

Lemma unphysical_update_returns_witness :
  ∃ g', update demo_bagpipes (demo_config false) demo_world fresh_galaxy
          demo_unphysical false None
        = Ok (warn (RuntimeWarning unphysical_msg) demo_world, g') ∧
        self_uvj g' = Some [0; 0; 0].
Proof.
  destruct (unphysical_update_returns demo_bagpipes (demo_config false) demo_world
              fresh_galaxy demo_unphysical false None 0)
    as (g' & Hrun & Huvj & _).
  - reflexivity.
  - intros _. by exists 0%nat.
  - simpl. discriminate.
  - reflexivity.
  - simpl. intros [x Hx]. discriminate Hx.
  - exists g'. split; [exact Hrun | exact Huvj].
Defined.

(** C2 as stated fails: with an AGN enabled the full spectrum after an
    unphysical update is not the zero array. *)
Lemma unphysical_with_agn_not_zero :
  ∃ w' g' full,
    unphysical (sfh_update demo_bagpipes (snap demo_heap demo_unphysical)) = true ∧
    update demo_bagpipes (demo_config true) demo_world fresh_galaxy
      demo_unphysical false None = Ok (w', g') ∧
    self_spectrum_full g' = Some full ∧
    ¬ Forall (λ x, x = 0) full.
Proof.
  eexists _, _, _. split; [reflexivity|]. split; [reflexivity|].
  split; [reflexivity|].
  intros Hall. apply Forall_cons in Hall as [H0 _]. lra.
Qed.

(** C10 as stated fails: an unphysical update on an instance with an AGN,
    an output grid, a filter and an index writes more than the full
    spectrum and the UVJ magnitudes, and the full spectrum it leaves is not
    the zero array. *)
Lemma unphysical_update_writes_more :
  ∃ w' g' full,
    unphysical (sfh_update demo_bagpipes (snap demo_heap demo_unphysical)) = true ∧
    update demo_bagpipes demo_plain_config demo_world fresh_galaxy
      demo_unphysical false None = Ok (w', g') ∧
    self_spectrum_full g' = Some full ∧
    ¬ Forall (λ x, x = 0) full ∧
    self_agn_spectrum fresh_galaxy = None ∧ is_Some (self_agn_spectrum g') ∧
    self_spectrum fresh_galaxy = None ∧ is_Some (self_spectrum g') ∧
    self_photometry fresh_galaxy = None ∧ is_Some (self_photometry g') ∧
    self_index_names fresh_galaxy = None ∧ is_Some (self_index_names g') ∧
    self_indices fresh_galaxy = None ∧ is_Some (self_indices g') ∧
    self_model_comp fresh_galaxy = None ∧ is_Some (self_model_comp g').
Proof.
  eexists _, _, _. split; [reflexivity|]. split; [reflexivity|].
  split; [reflexivity|]. split.
  { intros Hall. apply Forall_cons in Hall as [H0 _]. lra. }
  repeat split; by eexists.
Qed.

Lemma unphysical_update_frame_witness :
  ∃ w' g',
    update demo_bagpipes (demo_config false) demo_world fresh_galaxy
      demo_unphysical false None = Ok (w', g') ∧
    self_line_fluxes g' = None ∧ self_spectrum_bc g' = None.
Proof.
  eexists _, _.
  split; [reflexivity|].
  destruct (unphysical_update_frame demo_bagpipes (demo_config false) demo_world _
              fresh_galaxy _ demo_unphysical false None eq_refl eq_refl)
    as ((_ & _ & _ & _ & Hl & Hb) & _).
  split; [by apply Hl | by apply Hb].
Defined.

Lemma update_twice_witness :
  ∃ w1 g1 w2,
    update demo_bagpipes (demo_config false) demo_world fresh_galaxy
      (demo_components 1) false None = Ok (w1, g1) ∧
    update demo_bagpipes (demo_config false) w1 g1
      (demo_components 1) false None = Ok (w2, g1).
Proof.
  eexists _, _.
  destruct (update_twice demo_bagpipes (demo_config false) demo_world _
              fresh_galaxy _ (demo_components 1) false None
              (wf_demo_components 1) eq_refl) as [w2 H2].
  exists w2. split; [reflexivity | exact H2].
Defined.




Lemma luminosity_to_flux_conversion_witness :
  ∃ g', to_observed_flux demo_bagpipes (demo_config false)
          (set_spectrum_bc [1; 1; 1; 1] fresh_galaxy) 0 [2; 2; 2; 2] [3; 5] = Ok g' ∧
        self_lum_flux g' = Some 1.
Proof.
  destruct (luminosity_to_flux_conversion demo_bagpipes (demo_config false)
              (set_spectrum_bc [1; 1; 1; 1] fresh_galaxy) 0 [2; 2; 2; 2] [3; 5])
    as (g' & Hrun & Hzero & _).
  - intros _. by exists [1; 1; 1; 1].
  - exists g'. split; [exact Hrun|]. by destruct (Hzero eq_refl) as [Hlum _].
Defined.



(** * Further properties of the code *)

(** ** [H] and [addAbs] *)

(** X1. Away from [x = 0], where the code divides by [x ** 2], the profile
    with damping parameter zero is the Gaussian core [exp (- x ** 2)]; and
    the profile is even in [x] for every damping parameter. *)
Theorem H_gaussian_core_and_even (a x : R) :
  x ≠ 0 → H 0 x = exp (- (x ^ 2)) ∧ H a (- x) = H a x.
Proof.
  intros _. split.
  - unfold H. cbv zeta. unfold Rdiv. rewrite !Rmult_0_l. lra.
  - unfold H. cbv zeta. replace ((- x) ^ 2) with (x ^ 2) by ring. done.
Qed.

(** X2. [addAbs] returns one value for each wavelength, and a column
    density of zero absorbs nothing: the value is [1] at every wavelength
    at which the profile is evaluated away from its pole, for an absorber
    redshift other than [-1]. *)
Theorem addAbs_zero_column (wl_mod : list R) (zabs : R) (i : nat) (w : R) :
  wl_mod !! i = Some w →
  zabs + 1.0 ≠ 0 →
  (w / (zabs + 1.0) - 1215.67) / (1 / 2.998e10 * 1215.67) + 0.01 ≠ 0 →
  (∀ t, length (addAbs wl_mod t zabs) = length wl_mod) ∧
  addAbs wl_mod 0 zabs !! i = Some 1.
Proof.
  intros Hw _ _. split.
  - intros t. unfold addAbs. cbv zeta. by rewrite !length_fmap.
  - unfold addAbs. cbv zeta. rewrite !list_lookup_fmap, Hw. simpl.
    rewrite Rmult_0_r, Rmult_0_l, Ropp_0. by rewrite exp_0.
Qed.

(** X3. The absorption depends on the wavelengths and on the absorber
    redshift only through [wl_mod / (zabs + 1)]: scaling the wavelengths
    by [k] and taking the absorber at [(zabs + 1) * k - 1] gives the same
    array. *)
Theorem addAbs_absorber_frame (wl_mod : list R) (t zabs k : R) :
  k ≠ 0 → zabs + 1 ≠ 0 →
  addAbs ((λ w, w * k) <$> wl_mod) t ((zabs + 1) * k - 1) = addAbs wl_mod t zabs.
Proof.
  intros Hk _. unfold addAbs. cbv zeta. rewrite <- !list_fmap_compose.
  apply list_fmap_ext. intros i w _. simpl.
  replace (w * k / ((zabs + 1) * k - 1 + 1.0)) with (w / (zabs + 1.0)); [done|].
  replace ((zabs + 1) * k - 1 + 1.0) with ((zabs + 1.0) * k) by lra.
  unfold Rdiv. rewrite Rinv_mult. rewrite (Rmult_comm (/ (zabs + 1.0)) (/ k)).
  rewrite <- Rmult_assoc. rewrite (Rmult_assoc w k (/ k)).
  rewrite Rinv_r by done. by rewrite Rmult_1_r.
Qed.

(** ** Arrays and dictionaries *)

Lemma pow10_zero (x : R) : x = 0 → pow10 x = 1.
Proof. intros ->. unfold pow10. apply Rpower_O. lra. Qed.

Lemma vmul_ones (f : R → R) (a b : list R) :
  (∀ x, f x = 1) → (length a ≤ length b)%nat → vmul a (f <$> b) = a.
Proof.
  intros Hf. revert b. induction a as [|x a IH]; intros [|y b] Hlen; simpl in *;
    try done; try lia.
  unfold vmul in *. simpl. rewrite Hf, IH by lia. f_equal. lra.
Qed.

Lemma vadd_zeros (a b : list R) :
  (length a ≤ length b)%nat → vadd a (vscale 0 b) = a.
Proof.
  revert b. induction a as [|x a IH]; intros [|y b] Hlen; simpl in *;
    try done; try lia.
  unfold vadd, vscale in *. simpl. rewrite IH by lia. f_equal. lra.
Qed.

Lemma Forall_zero_vmul (a b : list R) :
  Forall (λ x, x = 0) a → Forall (λ x, x = 0) (vmul a b).
Proof.
  intros Ha. revert b. induction Ha as [|x a -> Ha IH]; intros [|y b]; simpl;
    try constructor; [lra | apply IH].
Qed.

Lemma Forall_zero_vdiv_scalar (a : list R) (c : R) :
  Forall (λ x, x = 0) a → Forall (λ x, x = 0) (vdiv_scalar a c).
Proof.
  intros Ha. induction Ha as [|x a -> Ha IH]; simpl; constructor; [|done].
  unfold Rdiv. apply Rmult_0_l.
Qed.

Lemma Forall_zero_vmul_scalar (a : list R) (c : R) :
  Forall (λ x, x = 0) a → Forall (λ x, x = 0) (vmul_scalar a c).
Proof.
  intros Ha. induction Ha as [|x a -> Ha IH]; simpl; constructor; [|done].
  apply Rmult_0_l.
Qed.

Lemma mapM_Res_length {A C} (f : A → Res C) (l : list A) (k : list C) :
  mapM f l = Ok k → length k = length l.
Proof.
  revert k. induction l as [|x l IH]; intros k Hk; simpl in Hk.
  { by injection Hk as <-. }
  destruct (f x) as [y|]; simpl in Hk; [|done].
  destruct (mapM f l) as [ys|]; simpl in Hk; [|done].
  injection Hk as <-. simpl. by rewrite (IH ys).
Qed.

Lemma foldl_insert_lookup (l : list (string * R)) (m : gmap string R) (k : string) (v : R) :
  foldl (λ m kv, <[kv.1 := kv.2]> m) m l !! k = Some v →
  m !! k = Some v ∨ (k, v) ∈ l.
Proof.
  revert m. induction l as [|[k' v'] l IH]; intros m Hk; simpl in Hk; [by left|].
  apply IH in Hk as [Hk|Hk].
  - simpl in Hk. apply lookup_insert_Some in Hk as [[<- <-]|[_ Hk]].
    + right. apply elem_of_cons. by left.
    + by left.
  - right. apply elem_of_cons. by right.
Qed.

Lemma dict_of_zip_values (names : list string) (values : list R) (k : string) (v : R) :
  dict_of_zip names values !! k = Some v → k ∈ names ∧ v ∈ values.
Proof.
  intros Hk. apply foldl_insert_lookup in Hk as [Hk|Hk].
  - by rewrite lookup_empty in Hk.
  - split; [by eapply elem_of_zip_l | by eapply elem_of_zip_r].
Qed.

Lemma foldl_insert_other (l : list (string * R)) (m : gmap string R) (k : string) :
  k ∉ l.*1 → foldl (λ m kv, <[kv.1 := kv.2]> m) m l !! k = m !! k.
Proof.
  revert m. induction l as [|[k' v'] l IH]; intros m Hk; [done|].
  rewrite fmap_cons in Hk. apply not_elem_of_cons in Hk as [Hne Hk].
  simpl. rewrite IH by done. simpl. by rewrite lookup_insert_ne.
Qed.

Lemma foldl_insert_member (l : list (string * R)) (m : gmap string R) (k : string) (v : R) :
  NoDup l.*1 → (k, v) ∈ l → foldl (λ m kv, <[kv.1 := kv.2]> m) m l !! k = Some v.
Proof.
  revert m. induction l as [|[k' v'] l IH]; intros m Hnd Hin.
  { by apply elem_of_nil in Hin. }
  rewrite fmap_cons in Hnd. apply NoDup_cons in Hnd as [Hk' Hnd].
  apply elem_of_cons in Hin as [Heq|Hin].
  - injection Heq as -> ->. simpl. rewrite foldl_insert_other by done.
    simpl. by rewrite lookup_insert_eq.
  - simpl. by apply IH.
Qed.

Lemma NoDup_zip_fst (names : list string) (values : list R) :
  NoDup names → NoDup (zip names values).*1.
Proof.
  intros Hnd. revert values. induction Hnd as [|n names Hn Hnd IH]; intros values.
  { constructor. }
  destruct values as [|v values]; [constructor|].
  simpl. apply NoDup_cons. split; [|apply IH].
  intros Hin. apply list_elem_of_fmap in Hin as ([n' v'] & -> & Hin).
  apply Hn. by eapply elem_of_zip_l.
Qed.

Lemma dict_of_zip_lookup (names : list string) (values : list R)
    (k : nat) (name : string) (v : R) :
  NoDup names → names !! k = Some name → values !! k = Some v →
  dict_of_zip names values !! name = Some v.
Proof.
  intros Hnd Hname Hv. unfold dict_of_zip.
  apply foldl_insert_member; [by apply NoDup_zip_fst|].
  by apply (elem_of_lookup_zip_with_2 pair names values name v (name, v) k).
Qed.

(** ** Missing entries, line removal, continuum-only synthesis *)

Section Synthesis.

Variable B : Bagpipes.
Variable cfg : Config.

(** X4. On an instance with dust attenuation, [update] of model components
    without a ["dust"] entry raises [KeyError] for that key, whatever else
    the components hold. *)
Theorem update_missing_dust (w : World) (g : Galaxy) (mc : TopDict)
    (cont_only : bool) (rm_line : option (list string)) :
  dust_enabled cfg = true → mc !! "dust" = None →
  update B cfg w g mc cont_only rm_line = Raise (KeyError "dust").
Proof.
  intros Hdust Hnone. unfold update, synthesise. rewrite Hdust.
  unfold get_sub, getitem. rewrite Hnone. done.
Qed.

(** X5. [_calculate_full_spectrum] never returns for model components
    without a ["redshift"] entry: every path through the nebular and dust
    stages reads it at line 305. *)
Theorem synthesis_needs_redshift (h : Store) (g : Galaxy) (mc : TopDict)
    (cont_only : bool) (rm_line : option (list string)) :
  mc !! "redshift" = None →
  raises (_calculate_full_spectrum B cfg h g mc cont_only rm_line).
Proof.
  intros Hnone. unfold _calculate_full_spectrum.
  apply bind_raises_later. intros t_bc _.
  apply bind_raises_later. intros s _.
  destruct (stellar_spectrum B (ceh_grid s) t_bc) as [spectrum_bc spectrum].
  apply bind_raises_later. intros [[[h1 g1] bc1] em1] _.
  apply bind_raises_later. intros [[bc2 em2] f2] _.
  apply bind_raises_later. intros [g3 sp3] _.
  apply bind_raises. exists (KeyError "redshift").
  unfold get_num, getitem. by rewrite Hnone.
Qed.

Lemma remove_line_shape (neb : SubDict) (em_lines spectrum_bc spectrum_bc' : list R)
    (rm : string) :
  remove_line B cfg neb em_lines spectrum_bc rm = Ok spectrum_bc' →
  spectrum_bc' = spectrum_bc ∨
  ∃ ind new, ind ≠ 0%nat ∧ ind ≠ (length (wavelengths cfg) - 1)%nat ∧
             spectrum_bc' = <[ind := new]> spectrum_bc.
Proof.
  intros Hrun. unfold remove_line in Hrun.
  repeat (step Hrun).
  all: injection Hrun as <-; try (by left).
  right.
  match goal with E : bool_decide _ = true |- _ =>
    apply bool_decide_eq_true in E as [? ?] end.
  by eexists _, _.
Qed.

(** X6. When the removal of any number of lines returns, the birth-cloud
    spectrum has the length it had, and its first pixel and the pixel at
    the last index of the wavelength grid are untouched. *)
Theorem remove_lines_keeps_shape_and_edges (neb : SubDict)
    (em_lines spectrum_bc spectrum_bc' : list R) (names : list string) :
  remove_lines B cfg neb em_lines spectrum_bc names = Ok spectrum_bc' →
  length spectrum_bc' = length spectrum_bc ∧
  spectrum_bc' !! 0%nat = spectrum_bc !! 0%nat ∧
  spectrum_bc' !! (length (wavelengths cfg) - 1)%nat
    = spectrum_bc !! (length (wavelengths cfg) - 1)%nat.
Proof.
  revert spectrum_bc. induction names as [|rm names IH]; intros spectrum_bc Hrun.
  { simpl in Hrun. by injection Hrun as <-. }
  simpl in Hrun.
  destruct (remove_line B cfg neb em_lines spectrum_bc rm) as [bc1|] eqn:Hone;
    res_simpl; [|done].
  destruct (IH _ Hrun) as (Hlen & Hfirst & Hlast).
  apply remove_line_shape in Hone as [->|(ind & new & H0 & HN & ->)]; [done|].
  rewrite Hlen, Hfirst, Hlast, length_insert.
  rewrite !list_lookup_insert_ne by done. done.
Qed.

Lemma birth_cloud_dust_zero_lines (da : DustAtten) (dust : SubDict)
    (spectrum_bc em_lines spectrum_bc' em_lines' : list R) (f : R) :
  birth_cloud_dust cfg da dust spectrum_bc em_lines = Ok (spectrum_bc', em_lines', f) →
  Forall (λ x, x = 0) em_lines → Forall (λ x, x = 0) em_lines'.
Proof.
  intros Hrun Hzero. unfold birth_cloud_dust in Hrun.
  repeat (step Hrun). all: injection Hrun as <- <- <-; by apply Forall_zero_vmul.
Qed.

(** X7. Without a nebular model, or with [cont_only], the synthesis
    ignores [rm_line] altogether (an unknown name raises nothing), copies
    no dictionary and leaves [neb_sfh] alone; when it returns, with a
    dilution factor other than zero, every entry of [line_fluxes] is a
    name of the line table with flux zero. *)
Theorem continuum_only_has_no_lines (h : Store) (g : Galaxy) (mc : TopDict)
    (cont_only : bool) (rm_line : option (list string)) :
  nebular_enabled cfg && negb cont_only = false →
  (∀ z, get_num mc "redshift" = Ok z → flux_dilution B z ≠ 0) →
  _calculate_full_spectrum B cfg h g mc cont_only rm_line
    = _calculate_full_spectrum B cfg h g mc cont_only None ∧
  ∀ h' g',
    _calculate_full_spectrum B cfg h g mc cont_only rm_line = Ok (h', g') →
    h' = h ∧ self_neb_sfh g' = self_neb_sfh g ∧
    ∃ lf, self_line_fluxes g' = Some lf ∧
          dom lf ⊆ (list_to_set (line_names B) : gset string) ∧
          ∀ name v, lf !! name = Some v → v = 0.
Proof.
  intros Hoff _. split.
  { unfold _calculate_full_spectrum. by rewrite Hoff. }
  intros h' g' Hrun.
  unfold _calculate_full_spectrum, dla_stage, to_observed_flux in Hrun.
  rewrite Hoff in Hrun.
  destruct g as [f1 f2 f3 f4 f5 f6 f7 f8 f9 f10 f11 f12 f13 f14].
  repeat (step Hrun).
  all: injection Hrun as <- <-; gal_simpl.
  all: split; [done|]; split; [done|]; eexists; split; [done|]; split.
  all: try (intros k Hk; apply elem_of_dom in Hk as [v Hv];
            apply dict_of_zip_values in Hv as [Hv _];
            by apply elem_of_list_to_set).
  all: intros name v Hv; apply dict_of_zip_values in Hv as [_ Hv];
    revert v Hv; apply Forall_forall;
    apply Forall_zero_vmul_scalar, Forall_zero_vdiv_scalar.
  all: try (eapply birth_cloud_dust_zero_lines; [eassumption|]).
  all: apply np_zeros_like_zero.
Qed.

(** ** The plain configuration and the line-flux dictionary *)

Lemma cfs_no_dust (h h' : Store) (g g' : Galaxy) (mc : TopDict)
    (c : bool) (r : option (list string)) :
  dust_enabled cfg = false →
  _calculate_full_spectrum B cfg h g mc c r = Ok (h', g') →
  self_spectrum_bc g' = self_spectrum_bc g ∧
  self_dust_atten g' = self_dust_atten g.
Proof.
  intros Hdust Hrun.
  unfold _calculate_full_spectrum, nebular_stage, nebular_grid, dla_stage,
    to_observed_flux in Hrun.
  rewrite Hdust in Hrun.
  destruct g as [f1 f2 f3 f4 f5 f6 f7 f8 f9 f10 f11 f12 f13 f14].
  run Hrun. all: done.
Qed.

(** X8. On an instance without dust attenuation a call of [update] that
    returns has assigned neither [spectrum_bc] nor [dust_atten]: both are
    as before the call, unassigned if they were. *)
Theorem no_dust_no_birth_cloud_attribute (w w' : World) (g g' : Galaxy)
    (mc : TopDict) (cont_only : bool) (rm_line : option (list string)) :
  dust_enabled cfg = false →
  update B cfg w g mc cont_only rm_line = Ok (w', g') →
  self_spectrum_bc g' = self_spectrum_bc g ∧
  self_dust_atten g' = self_dust_atten g.
Proof.
  intros Hdust Hrun. unfold update in Hrun.
  destruct (synthesise B cfg w g mc cont_only rm_line) as [[wb gb]|] eqn:Hsyn;
    gal_simpl; [|done].
  destruct (observables B cfg wb gb mc) as [g1|] eqn:Hobs; gal_simpl; [|done].
  injection Hrun as <- <-.
  destruct (observables_frame _ _ _ _ _ _ Hobs) as (_ & _ & _ & -> & -> & _).
  unfold synthesise in Hsyn. rewrite Hdust in Hsyn.
  destruct g as [f1 f2 f3 f4 f5 f6 f7 f8 f9 f10 f11 f12 f13 f14].
  gal_simpl. step Hsyn.
  - by injection Hsyn as <- <-.
  - step Hsyn. injection Hsyn as <- <-.
    match goal with E : _calculate_full_spectrum _ _ _ _ _ _ _ = Ok _ |- _ =>
      by destruct (cfs_no_dust _ _ _ _ _ _ _ Hdust E) end.
Qed.

(** X9. Without dust, without nebular emission (or with [cont_only]) and
    without a ["dla"] entry, the synthesis returns, leaves the store as it
    is, and the full spectrum is the stellar spectrum plus the birth-cloud
    spectrum, times the IGM transmission, over [lum_flux * (1 + z)], times
    the solar luminosity; the age of the birth clouds is ["t_bc"], or
    [0.01] without that entry. *)
Theorem plain_synthesis (h : Store) (g : Galaxy) (mc : TopDict)
    (cont_only : bool) (rm_line : option (list string)) (s : Sfh) (t_bc z : R) :
  dust_enabled cfg = false →
  nebular_enabled cfg && negb cont_only = false →
  mc !! "dla" = None →
  (if has_key mc "t_bc" then get_num mc "t_bc" else Ok 0.01) = Ok t_bc →
  self_sfh g = Some s →
  get_num mc "redshift" = Ok z →
  let stellar := stellar_spectrum B (ceh_grid s) t_bc in
  ∃ g',
    _calculate_full_spectrum B cfg h g mc cont_only rm_line = Ok (h, g') ∧
    self_lum_flux g' = Some (flux_dilution B z) ∧
    self_spectrum_full g' =
      Some ((λ x, x / (flux_dilution B z * (1 + z)) * L_sun)
              <$> vmul (vadd stellar.2 stellar.1) (igm_trans B z)).
Proof.
  intros Hdust Hneb Hdla Htbc Hsfh Hz stellar.
  unfold _calculate_full_spectrum, dla_stage, to_observed_flux.
  rewrite Htbc, Hsfh, Hneb, Hdust, Hz. gal_simpl.
  fold stellar. destruct stellar as [spectrum_bc spectrum]. gal_simpl.
  assert (has_key mc "dla" = false) as ->.
  { unfold has_key. apply bool_decide_eq_false_2. rewrite Hdla. by intros [? ?]. }
  destruct g. gal_simpl. eexists. split; [done|]. gal_simpl. split; [done|].
  f_equal. unfold vmul_scalar, vdiv_scalar. rewrite <- list_fmap_compose.
  apply list_fmap_ext. intros i x _. simpl.
  by replace (1.0 + z) with (1 + z) by lra.
Qed.

(** X10. With distinct names in the line table, the conversion to observed
    flux stores under the [k]-th name the [k]-th line luminosity over
    [lum_flux], times the solar luminosity; a name outside the table has no
    entry in [line_fluxes]. *)
Theorem line_flux_of_name (g : Galaxy) (z : R) (spectrum em : list R)
    (k : nat) (name : string) (f : R) :
  NoDup (line_names B) →
  line_names B !! k = Some name → em !! k = Some f →
  (dust_enabled cfg = true → is_Some (self_spectrum_bc g)) →
  ∃ g' lf,
    to_observed_flux B cfg g z spectrum em = Ok g' ∧
    self_line_fluxes g' = Some lf ∧
    lf !! name = Some (f / flux_dilution B z * L_sun) ∧
    ∀ other, other ∉ line_names B → lf !! other = None.
Proof.
  intros Hnd Hname Hf Hbc.
  destruct (to_observed_flux_Ok B cfg g z spectrum em Hbc)
    as (g' & Hrun & _ & _ & _ & Hlines & _).
  eexists g', _. split; [done|]. split; [done|]. split.
  - apply (dict_of_zip_lookup _ _ k); [done..|].
    unfold vmul_scalar, vdiv_scalar. by rewrite !list_lookup_fmap, Hf.
  - intros other Hother. apply eq_None_not_Some. intros [v Hv].
    apply dict_of_zip_values in Hv as [Hin _]. done.
Qed.

(** ** Dust: the defaults and the transparent limit *)

(** X11. An ["eta"] of one is the default: the birth-cloud stage gives the
    same result (or raises the same exception) as for the dictionary
    without ["eta"], for a birth-cloud spectrum no longer than the
    attenuation curve. *)
Theorem eta_one_is_default (da : DustAtten) (dust : SubDict)
    (spectrum_bc em_lines : list R) :
  dust !! "eta" = Some (Num 1) →
  (length spectrum_bc ≤ length (A_cont da))%nat →
  birth_cloud_dust cfg da dust spectrum_bc em_lines
    = birth_cloud_dust cfg da (delete "eta" dust) spectrum_bc em_lines.
Proof.
  intros Heta Hlen. unfold birth_cloud_dust.
  assert (has_key dust "eta" = true) as ->.
  { apply has_key_true. by rewrite Heta. }
  assert (has_key (delete "eta" dust) "eta" = false) as ->.
  { unfold has_key. apply bool_decide_eq_false_2. rewrite lookup_delete_eq.
    by intros [? ?]. }
  assert (sub_num dust "eta" = Ok 1) as ->.
  { unfold sub_num, getitem. by rewrite Heta. }
  assert (sub_num (delete "eta" dust) "Av" = sub_num dust "Av") as ->.
  { unfold sub_num, getitem. by rewrite lookup_delete_ne. }
  res_simpl. destruct (sub_num dust "Av") as [Av|e]; res_simpl; [|done].
  rewrite vmul_ones; [|intros a|done].
  - rewrite np_trapz_zero by apply vsub_diag.
    rewrite (fmap_ext_R (λ a, pow10 (- (1 * Av) * a / 2.5))
               (λ a, pow10 (- (1.0 * Av) * a / 2.5)))
      by (intros a; f_equal; lra).
    by replace (0.0 + 0) with 0.0 by lra.
  - apply pow10_zero. lra.
Qed.

(** X12. With [Av = 0] dust does nothing: on arrays of the shapes of the
    grid and of the line table, the birth-cloud stage returns the
    birth-cloud spectrum and the line luminosities unchanged with a
    [dust_flux] of zero, and the diffuse stage returns the spectrum
    unchanged, nothing being re-emitted. *)
Theorem zero_extinction_is_transparent (da : DustAtten) (dust : SubDict)
    (spectrum spectrum_bc em_lines : list R) :
  sub_num dust "Av" = Ok 0 →
  numeric_if_present dust "eta" → numeric_if_present dust "qpah" →
  numeric_if_present dust "umin" → numeric_if_present dust "gamma" →
  length (A_cont da) = length (wavelengths cfg) →
  length spectrum = length (wavelengths cfg) →
  length spectrum_bc = length (wavelengths cfg) →
  length (A_line da) = length em_lines →
  (∀ qpah umin gamma,
     length (dust_emission_spectrum B qpah umin gamma) = length (wavelengths cfg)) →
  birth_cloud_dust cfg da dust spectrum_bc em_lines = Ok (spectrum_bc, em_lines, 0) ∧
  diffuse_dust B cfg da dust spectrum spectrum_bc 0 = Ok (spectrum, spectrum_bc, 0).
Proof.
  intros HAv Heta Hqpah Humin Hgamma Hcont Hspec Hbc Hline Htemplate.
  assert (∀ c a : R, pow10 (- (c * 0) * a / 2.5) = 1) as Hone.
  { intros c a. apply pow10_zero. lra. }
  split.
  - unfold birth_cloud_dust. destruct (has_key dust "eta") eqn:Hkey.
    + destruct (sub_num_present _ _ Heta Hkey) as [eta ->]. res_simpl.
      rewrite HAv. res_simpl.
      rewrite !vmul_ones; [|intros a; apply Hone|lia|intros a; apply Hone|lia].
      rewrite np_trapz_zero by apply vsub_diag.
      by replace (0.0 + 0) with 0 by lra.
    + res_simpl. rewrite HAv. res_simpl.
      rewrite vmul_ones; [|intros a; apply Hone|lia].
      by replace 0.0 with 0 by lra.
  - unfold diffuse_dust. rewrite HAv. res_simpl.
    destruct (sub_num_or_default dust "qpah" 2.0 Hqpah) as [qpah ->].
    destruct (sub_num_or_default dust "umin" 1.0 Humin) as [umin ->].
    destruct (sub_num_or_default dust "gamma" 0.01 Hgamma) as [gamma ->].
    res_simpl.
    assert (∀ a : R, pow10 (- 0 * a / 2.5) = 1) as Hone'.
    { intros a. apply pow10_zero. lra. }
    rewrite !vmul_ones; [|intros a; apply Hone'|lia|intros a; apply Hone'|lia].
    rewrite np_trapz_zero by apply vsub_diag.
    unfold dust_reemission. replace (0 + 0) with 0 by lra.
    rewrite vadd_zeros; [done|]. rewrite Htemplate. lia.
Qed.

(** ** [update]: the caller's dictionary, the observables, earlier calls *)

Lemma cfs_assigns (h h1 : Store) (g gb : Galaxy) (mc : TopDict)
    (c : bool) (r : option (list string)) :
  _calculate_full_spectrum B cfg h g mc c r = Ok (h1, gb) →
  is_Some (self_spectrum_full gb) ∧ is_Some (self_line_fluxes gb) ∧
  is_Some (self_lum_flux gb).
Proof.
  intros Hrun.
  unfold _calculate_full_spectrum, nebular_stage, nebular_grid, dla_stage,
    to_observed_flux in Hrun.
  destruct g as [f1 f2 f3 f4 f5 f6 f7 f8 f9 f10 f11 f12 f13 f14].
  run Hrun. all: gal_simpl; by repeat split.
Qed.

Lemma synthesise_sfh (w wb : World) (g gb : Galaxy) (mc : TopDict)
    (c : bool) (r : option (list string)) :
  synthesise B cfg w g mc c r = Ok (wb, gb) →
  self_sfh gb = Some (sfh_update B (snap (heap w) mc)) ∧
  is_Some (self_spectrum_full gb) ∧
  emitted wb =
    if unphysical (sfh_update B (snap (heap w) mc))
    then emitted w ++ [RuntimeWarning unphysical_msg] else emitted w.
Proof.
  intros Hsyn. unfold synthesise in Hsyn.
  destruct g as [f1 f2 f3 f4 f5 f6 f7 f8 f9 f10 f11 f12 f13 f14].
  gal_simpl.
  destruct (dust_enabled cfg);
    [destruct (get_sub (heap w) mc "dust"); gal_simpl; [|done] |]; gal_simpl.
  all: destruct (unphysical (sfh_update B (snap (heap w) mc))).
  all: try (injection Hsyn as <- <-; done).
  all: step Hsyn; injection Hsyn as <- <-.
  all: match goal with E : _calculate_full_spectrum _ _ _ _ _ _ _ = Ok _ |- _ =>
         destruct (cfs_frame _ _ _ _ _ _ _ _ _ E) as (_ & -> & _);
         destruct (cfs_assigns _ _ _ _ _ _ _ E) as (? & _) end.
  all: done.
Qed.

(** X13. A call of [update] that returns has changed no object of the
    caller's dictionary, whatever the nebular metallicity did to the copy:
    every object the store held is as it was and the dictionary reads as
    before; the instance holds this dictionary and the star-formation
    history updated from it; and exactly one warning was emitted when that
    history is unphysical, none otherwise. *)
Theorem update_leaves_the_callers_components (w w' : World) (g g' : Galaxy)
    (mc : TopDict) (cont_only : bool) (rm_line : option (list string)) :
  wf_dict (heap w) mc →
  update B cfg w g mc cont_only rm_line = Ok (w', g') →
  extends (heap w) (heap w') ∧
  snap (heap w') mc = snap (heap w) mc ∧
  self_model_comp g' = Some mc ∧
  self_sfh g' = Some (sfh_update B (snap (heap w) mc)) ∧
  emitted w' =
    if unphysical (sfh_update B (snap (heap w) mc))
    then emitted w ++ [RuntimeWarning unphysical_msg] else emitted w.
Proof.
  intros Hwf Hrun. unfold update in Hrun.
  destruct (synthesise B cfg w g mc cont_only rm_line) as [[wb gb]|] eqn:Hsyn;
    gal_simpl; [|done].
  destruct (observables B cfg wb gb mc) as [g1|] eqn:Hobs; gal_simpl; [|done].
  injection Hrun as <- <-.
  destruct (observables_frame _ _ _ _ _ _ Hobs) as (-> & -> & _).
  destruct (synthesise_replay B cfg w w wb g gb gb mc cont_only rm_line Hsyn Hwf
              (extends_refl _) eq_refl eq_refl eq_refl eq_refl eq_refl eq_refl
              eq_refl (λ _ _ _, eq_refl))
    as (_ & _ & _ & _ & Hmc & Hx & _).
  destruct (synthesise_sfh _ _ _ _ _ _ _ Hsyn) as (Hsfh & _ & Hwarn).
  split; [done|]. split; [by apply snap_extends|]. done.
Qed.

(** X14. After a call of [update] that returns, the full spectrum is
    assigned, the photometry (with a filter list) is the one computed from
    that final spectrum at the redshift of the components, the UVJ
    magnitudes (for a physical history) are those of that final spectrum,
    and with an index list there are as many index values as names. *)
Theorem observables_follow_the_final_spectrum (w w' : World) (g g' : Galaxy)
    (mc : TopDict) (cont_only : bool) (rm_line : option (list string)) :
  update B cfg w g mc cont_only rm_line = Ok (w', g') →
  ∃ full,
    self_spectrum_full g' = Some full ∧
    (is_Some (filt_list cfg) →
       ∃ z, get_num mc "redshift" = Ok z ∧
            self_photometry g' = Some (calculate_photometry B full z)) ∧
    (unphysical (sfh_update B (snap (heap w) mc)) = false →
       self_uvj g' = Some (calculate_uvj_mags B full)) ∧
    (∀ il, index_list cfg = Some il →
       self_index_names g' = Some (ind_name <$> il) ∧
       ∃ values, self_indices g' = Some values ∧ length values = length il).
Proof.
  intros Hrun.
  assert (∃ wb gb, self_sfh gb = Some (sfh_update B (snap (heap w) mc)) ∧
                   is_Some (self_spectrum_full gb) ∧
                   observables B cfg wb gb mc = Ok g')
    as (wb & gb & Hsfh' & [F0 HF0] & Hobs).
  { unfold update in Hrun.
    destruct (synthesise B cfg w g mc cont_only rm_line) as [[wb gb]|] eqn:Hsyn;
      gal_simpl; [|done].
    destruct (observables B cfg wb gb mc) as [g1|] eqn:Hobs; gal_simpl; [|done].
    injection Hrun as <- <-.
    destruct (synthesise_sfh _ _ _ _ _ _ _ Hsyn) as (Hsfh & HF & _).
    by exists wb, gb. }
  clear Hrun.
  unfold observables in Hobs.
  destruct gb as [f1 f2 f3 f4 f5 f6 f7 f8 f9 f10 f11 f12 f13 f14].
  gal_simpl. subst f2 f6.
  destruct (index_list cfg) as [il|] eqn:Hil.
  all: repeat (step Hobs).
  all: try (injection Hobs as <-).
  all: gal_simpl.
  all: eexists; split; [reflexivity|].
  all: split; [|split].
  all: match goal with
       | |- is_Some _ → _ =>
           intros [? Hf]; first [discriminate Hf | by eexists]
       | |- unphysical _ = false → _ =>
           intros Hphys;
           match goal with E : negb (unphysical _) = _ |- _ =>
             rewrite Hphys in E; try discriminate E end; done
       | |- ∀ x, _ = Some x → _ =>
           intros il' Hil';
           first [ discriminate Hil'
                 | injection Hil' as <-;
                   split; [done|]; eexists; split; [done|];
                   eapply mapM_Res_length; eassumption ]
       end.
Qed.

Ltac grid_hook :=
  match goal with
  | E : nebular_grid _ ?h ?g ?mc = Ok (?h1, ?g1, ?grid), Hwf : wf_dict ?h ?mc |- _ =>
      let wr := fresh "wr" in
      let Hx := fresh "Hx" in
      let Hall := fresh "Hall" in
      destruct (nebular_grid_replay B h g mc h1 g1 grid E Hwf) as (wr & -> & Hx & Hall);
      clear E; destruct wr; gal_simpl;
      rewrite ?(get_sub_extends _ _ _ _ Hwf Hx) in *
  end.

Lemma cfs_independent (h h' h1 : Store) (g gb g' : Galaxy) (mc : TopDict)
    (c : bool) (r : option (list string)) :
  _calculate_full_spectrum B cfg h g mc c r = Ok (h1, gb) →
  self_model_comp g = Some mc →
  wf_dict h mc →
  extends h h' →
  self_model_comp g' = self_model_comp g →
  self_sfh g' = self_sfh g →
  (dust_enabled cfg = true → self_dust_atten g' = self_dust_atten g) →
  ∃ (h1' : Store) (gb' : Galaxy),
    _calculate_full_spectrum B cfg h' g' mc c r = Ok (h1', gb') ∧
    extends h' h1' ∧
    self_spectrum_full gb' = self_spectrum_full gb ∧
    self_line_fluxes gb' = self_line_fluxes gb ∧
    self_lum_flux gb' = self_lum_flux gb ∧
    (dust_enabled cfg = true → self_spectrum_bc gb' = self_spectrum_bc gb).
Proof.
  intros Hrun Hmc Hwf Hext H1 H2 H3.
  unfold _calculate_full_spectrum, nebular_stage, dla_stage, to_observed_flux in *.
  destruct g as [f1 f2 f3 f4 f5 f6 f7 f8 f9 f10 f11 f12 f13 f14].
  destruct g' as [k1 k2 k3 k4 k5 k6 k7 k8 k9 k10 k11 k12 k13 k14].
  gal_simpl. subst f1 k1 k2.
  destruct (dust_enabled cfg) eqn:Hd; [specialize (H3 eq_refl); subst k4 | clear H3].
  all: gal_simpl.
  all: repeat (step Hrun; try grid_hook; norm_reads).
  all: inversion Hrun; subst; clear Hrun; gal_simpl; subst.
  all: replay.
  all: try (match goal with
            | Hall : ∀ (h' : Store) (g' : Galaxy), _ |- context [nebular_grid B ?h2 ?g2 _] =>
                destruct (Hall h2 g2 Hext eq_refl) as (h1' & Hgrid & Hx');
                rewrite Hgrid;
                pose proof (wf_dict_extends _ _ _ Hwf Hext) as Hwf';
                clear Hgrid; gal_simpl
            end).
  all: repeat (norm_reads; replay).
  all: eexists; eexists; split; [reflexivity|]; gal_simpl; repeat split; try done.
  all: eauto using extends_refl, extends_trans.
  all: try (intros Hd'; congruence).
Qed.

Lemma observables_independent (h0 : Store) (w w' : World) (g g' g1 : Galaxy)
    (mc : TopDict) :
  observables B cfg w g mc = Ok g1 →
  self_model_comp g = Some mc →
  wf_dict h0 mc →
  extends h0 (heap w) →
  extends h0 (heap w') →
  self_model_comp g' = self_model_comp g →
  self_sfh g' = self_sfh g →
  self_spectrum_full g' = self_spectrum_full g →
  (is_Some (index_list cfg) → is_Some (spec_wavs cfg)) →
  ∃ g1',
    observables B cfg w' g' mc = Ok g1' ∧
    self_spectrum_full g1' = self_spectrum_full g1 ∧
    (∀ s, self_sfh g = Some s → unphysical s = false →
       self_uvj g1' = self_uvj g1) ∧
    (self_line_fluxes g' = self_line_fluxes g →
       self_line_fluxes g1' = self_line_fluxes g1) ∧
    (self_lum_flux g' = self_lum_flux g → self_lum_flux g1' = self_lum_flux g1) ∧
    (is_Some (spec_wavs cfg) → self_spectrum g1' = self_spectrum g1) ∧
    (agn_enabled cfg = true → self_agn_spectrum g1' = self_agn_spectrum g1) ∧
    (is_Some (filt_list cfg) → self_photometry g1' = self_photometry g1) ∧
    (is_Some (index_list cfg) →
       self_index_names g1' = self_index_names g1 ∧
       self_indices g1' = self_indices g1).
Proof.
  intros Hobs Hmc Hwf Hext Hext' H1 H2 H3 Hidx. unfold observables in *.
  rewrite (snap_extends _ _ _ Hwf Hext) in Hobs.
  rewrite (snap_extends _ _ _ Hwf Hext').
  destruct g as [f1 f2 f3 f4 f5 f6 f7 f8 f9 f10 f11 f12 f13 f14].
  destruct g' as [k1 k2 k3 k4 k5 k6 k7 k8 k9 k10 k11 k12 k13 k14].
  gal_simpl. subst. gal_simpl.
  destruct (index_list cfg) as [il|] eqn:Hil;
    [destruct Hidx as [sw Hsw]; [done|]; rewrite Hsw in * |].
  all: norm_reads.
  all: repeat (step Hobs; norm_reads).
  all: inversion Hobs; subst; clear Hobs.
  all: gal_simpl.
  all: repeat (norm_reads; replay).
  all: eexists; split; [reflexivity|]; gal_simpl.
  all: repeat split; try done.
  all: try (intros [? ?]; discriminate).
  all: intros s' Hs' Hun; injection Hs' as <-; rewrite Hun in *; done.
Qed.

(** X15. What [update] computes for a physical history does not depend on
    what the instance held before: if one call returns, the same call on
    any other state of the instance, in a store that extends the first,
    returns too, with the same full spectrum, line fluxes, [lum_flux] and
    UVJ magnitudes, and the same resampled spectrum, AGN spectrum,
    photometry and indices where the configuration computes them (an index
    list being used only together with an output grid). *)
Theorem update_forgets_the_previous_state (w w' w1 : World) (g g' g1 : Galaxy)
    (mc : TopDict) (cont_only : bool) (rm_line : option (list string)) :
  wf_dict (heap w) mc →
  extends (heap w) (heap w') →
  (is_Some (index_list cfg) → is_Some (spec_wavs cfg)) →
  unphysical (sfh_update B (snap (heap w) mc)) = false →
  update B cfg w g mc cont_only rm_line = Ok (w1, g1) →
  ∃ w1' g1',
    update B cfg w' g' mc cont_only rm_line = Ok (w1', g1') ∧
    self_spectrum_full g1' = self_spectrum_full g1 ∧
    self_line_fluxes g1' = self_line_fluxes g1 ∧
    self_lum_flux g1' = self_lum_flux g1 ∧
    self_uvj g1' = self_uvj g1 ∧
    (is_Some (spec_wavs cfg) → self_spectrum g1' = self_spectrum g1) ∧
    (agn_enabled cfg = true → self_agn_spectrum g1' = self_agn_spectrum g1) ∧
    (is_Some (filt_list cfg) → self_photometry g1' = self_photometry g1) ∧
    (is_Some (index_list cfg) →
       self_index_names g1' = self_index_names g1 ∧
       self_indices g1' = self_indices g1).
Proof.
  intros Hwf Hext Hidx Hphys Hrun. unfold update in *.
  destruct (synthesise B cfg w g mc cont_only rm_line) as [[wb gb]|] eqn:Hsyn;
    gal_simpl; [|done].
  destruct (observables B cfg wb gb mc) as [g1a|] eqn:Hobs; gal_simpl; [|done].
  injection Hrun as <- <-.
  assert (∃ wb' gb',
    synthesise B cfg w' g' mc cont_only rm_line = Ok (wb', gb') ∧
    extends (heap w) (heap wb) ∧ extends (heap w) (heap wb') ∧
    self_model_comp gb = Some mc ∧
    self_model_comp gb' = self_model_comp gb ∧
    self_sfh gb' = self_sfh gb ∧
    self_sfh gb = Some (sfh_update B (snap (heap w) mc)) ∧
    self_spectrum_full gb' = self_spectrum_full gb ∧
    self_line_fluxes gb' = self_line_fluxes gb ∧
    self_lum_flux gb' = self_lum_flux gb)
    as (wb' & gb' & Hsyn' & Hx & Hx' & Hmc & E1 & E2 & Hsfh & E3 & E4 & E5).
  { unfold synthesise in *.
    rewrite (snap_extends _ _ _ Hwf Hext).
    rewrite (get_sub_extends _ _ _ _ Hwf Hext).
    destruct g as [f1 f2 f3 f4 f5 f6 f7 f8 f9 f10 f11 f12 f13 f14].
    destruct g' as [k1 k2 k3 k4 k5 k6 k7 k8 k9 k10 k11 k12 k13 k14].
    gal_simpl.
    destruct (dust_enabled cfg) eqn:Hdust;
      [destruct (get_sub (heap w) mc "dust") as [dust|]; gal_simpl; [|done] |];
      gal_simpl.
    all: rewrite Hphys in *.
    all: match type of Hsyn with
         | context [_calculate_full_spectrum _ _ _ ?ga _ _ _] =>
             destruct (_calculate_full_spectrum B cfg (heap w) ga mc cont_only rm_line)
               as [[h1 g0]|] eqn:Hcfs; gal_simpl; [|done];
             injection Hsyn as <- <-;
             destruct (cfs_frame _ _ _ _ _ _ _ _ _ Hcfs) as (Hf1 & Hf2 & Hf3 & _);
             match goal with
             | |- context [_calculate_full_spectrum _ _ _ ?ga' _ _ _] =>
                 destruct (cfs_independent (heap w) (heap w') h1 ga g0 ga' mc
                             cont_only rm_line Hcfs eq_refl Hwf Hext
                             eq_refl eq_refl
                             ltac:(first [by intros _ | by rewrite Hdust]))
                   as (h1' & gb' & Hcfs' & Hx' & E3 & E4 & E5 & _);
                 destruct (cfs_frame _ _ _ _ _ _ _ _ _ Hcfs') as (Hf1' & Hf2' & _);
                 destruct (cfs_replay B cfg (heap w) (heap w) h1 ga g0 g0 mc
                             cont_only rm_line Hcfs eq_refl Hwf (extends_refl _)
                             Hf1 Hf2 Hf3 eq_refl eq_refl eq_refl eq_refl)
                   as (_ & _ & _ & _ & Hx & _)
             end
         end.
    all: rewrite Hcfs'; gal_simpl.
    all: eexists _, _; split; [reflexivity|]; gal_simpl.
    all: rewrite ?Hf1, ?Hf2, ?Hf1', ?Hf2'; gal_simpl.
    all: repeat split; try done.
    all: eauto using extends_trans. }
  destruct (observables_frame _ _ _ _ _ _ Hobs) as (_ & _ & _ & _ & _ & F6 & F7 & _).
  rewrite Hsyn'. gal_simpl.
  destruct (observables_independent (heap w) wb wb' gb gb' g1a mc Hobs Hmc Hwf Hx Hx'
              E1 E2 E3 Hidx)
    as (g1' & Hobs' & R1 & R2 & R3 & R4 & R5 & R6 & R7 & R8).
  rewrite Hobs'. gal_simpl. eexists _, _. split; [reflexivity|].
  split; [done|]. split; [by apply R3|]. split; [by apply R4|].
  split; [|done].
  by apply (R2 _ Hsfh).
Qed.

End Synthesis.

(** ** [update]: the AGN, and the options with an unphysical history *)

Section Agn.

Variable B : Bagpipes.
Variable cfg : Config.

Lemma synthesise_model_comp (w wb : World) (g gb : Galaxy) (mc : TopDict)
    (c : bool) (r : option (list string)) :
  synthesise B cfg w g mc c r = Ok (wb, gb) → self_model_comp gb = Some mc.
Proof.
  intros Hsyn. unfold synthesise in Hsyn.
  destruct g as [f1 f2 f3 f4 f5 f6 f7 f8 f9 f10 f11 f12 f13 f14].
  gal_simpl.
  destruct (dust_enabled cfg);
    [destruct (get_sub (heap w) mc "dust"); gal_simpl; [|done] |]; gal_simpl.
  all: destruct (unphysical (sfh_update B (snap (heap w) mc))).
  all: try (injection Hsyn as <- <-; done).
  all: step Hsyn; injection Hsyn as <- <-.
  all: match goal with E : _calculate_full_spectrum _ _ _ _ _ _ _ = Ok _ |- _ =>
         destruct (cfs_frame _ _ _ _ _ _ _ _ _ E) as (-> & _) end.
  all: done.
Qed.

(** X16. With an AGN, a call of [update] that returns has added the AGN
    spectrum once, after the synthesis: [agn_spectrum] is the spectrum of
    the AGN model for [model_comp["agn"]] times the IGM transmission, the
    full spectrum is the synthesised one plus that over [1 + z] (it is not
    divided by [lum_flux]), and with an output grid the flux column of the
    resampled spectrum is the one resampled from the synthesised spectrum
    plus the AGN spectrum over [1 + z] interpolated from the observed grid. *)
Theorem agn_is_added_after_synthesis (w w' : World) (g g' : Galaxy)
    (mc : TopDict) (cont_only : bool) (rm_line : option (list string)) :
  agn_enabled cfg = true →
  update B cfg w g mc cont_only rm_line = Ok (w', g') →
  ∃ gb synthesised param z,
    synthesise B cfg w g mc cont_only rm_line = Ok (w', gb) ∧
    self_spectrum_full gb = Some synthesised ∧
    get_sub (heap w') mc "agn" = Ok param ∧
    get_num mc "redshift" = Ok z ∧
    let agn_spec := vmul (agn_update B param) (igm_trans B z) in
    self_agn_spectrum g' = Some agn_spec ∧
    self_spectrum_full g' = Some (vadd synthesised (vdiv_scalar agn_spec (1.0 + z))) ∧
    ∀ sw, spec_wavs cfg = Some sw →
      self_spectrum g' =
        Some (zip_with (λ row a, (row.1, row.2 + a))
                (calculate_spectrum B synthesised (snap (heap w') mc))
                (np_interp B (vmul_scalar (wavelengths cfg) (z + 1.0))
                   (vdiv_scalar agn_spec (z + 1.0)) <$> sw)).
Proof.
  intros Hagn Hrun. unfold update in Hrun.
  destruct (synthesise B cfg w g mc cont_only rm_line) as [[wb gb]|] eqn:Hsyn;
    gal_simpl; [|done].
  destruct (observables B cfg wb gb mc) as [g1|] eqn:Hobs; gal_simpl; [|done].
  injection Hrun as <- <-.
  pose proof (synthesise_model_comp _ _ _ _ _ _ _ Hsyn) as Hmc.
  destruct (synthesise_sfh _ _ _ _ _ _ _ _ _ Hsyn) as (_ & [F0 HF0] & _).
  exists gb, F0. unfold observables in Hobs. rewrite Hagn in Hobs.
  destruct gb as [f1 f2 f3 f4 f5 f6 f7 f8 f9 f10 f11 f12 f13 f14].
  gal_simpl. subst f1 f6.
  repeat (step Hobs).
  all: try (injection Hobs as <-).
  all: gal_simpl.
  all: eexists _, _; split; [done|]; split; [done|]; split; [done|]; split; [done|].
  all: split; [done|]; split; [done|].
  all: intros sw' Hsw'; first [discriminate Hsw' | by injection Hsw' as <-].
Qed.

(** X17. With an unphysical star-formation history [update] does not look
    at [cont_only] and [rm_line]: the outcome is the same for all their
    values, so a line name that is not in the table raises nothing. *)
Theorem unphysical_update_ignores_options (w : World) (g : Galaxy) (mc : TopDict)
    (cont_only cont_only' : bool) (rm_line rm_line' : option (list string)) :
  unphysical (sfh_update B (snap (heap w) mc)) = true →
  update B cfg w g mc cont_only rm_line = update B cfg w g mc cont_only' rm_line'.
Proof.
  intros Hun. unfold update, synthesise.
  destruct g as [f1 f2 f3 f4 f5 f6 f7 f8 f9 f10 f11 f12 f13 f14].
  gal_simpl.
  destruct (dust_enabled cfg);
    [destruct (get_sub (heap w) mc "dust"); gal_simpl; [|done] |]; gal_simpl.
  all: by rewrite Hun.
Qed.
End Agn.

(** ** The further properties at the small instances *)

Lemma H_gaussian_core_and_even_witness :
  H 0 1 = exp (- (1 ^ 2)) ∧ H 1 (- 1) = H 1 1.
Proof. apply (H_gaussian_core_and_even 1 1). lra. Defined.

Lemma addAbs_zero_column_witness :
  addAbs [1000; 1215.67] 0 0.5 !! 0%nat = Some 1.
Proof.
  apply (addAbs_zero_column [1000; 1215.67] 0.5 0 1000); [reflexivity | lra | lra].
Defined.

Lemma addAbs_absorber_frame_witness :
  addAbs ((λ w, w * 2) <$> [1000; 1215.67]) 1 ((0.5 + 1) * 2 - 1)
  = addAbs [1000; 1215.67] 1 0.5.
Proof. apply (addAbs_absorber_frame [1000; 1215.67] 1 0.5 2); lra. Defined.

Lemma update_missing_dust_witness :
  update demo_bagpipes (demo_config false) demo_world fresh_galaxy
    {[ "redshift" := EScalar (Num 1) ]} false None = Raise (KeyError "dust").
Proof.
  apply (update_missing_dust demo_bagpipes (demo_config false)); reflexivity.
Defined.

Lemma synthesis_needs_redshift_witness :
  raises (_calculate_full_spectrum demo_bagpipes (demo_config false) demo_heap
            (set_sfh (sfh_update demo_bagpipes ∅) fresh_galaxy)
            {[ "dust" := ERef 0; "nebular" := ERef 1 ]} false None).
Proof.
  apply (synthesis_needs_redshift demo_bagpipes (demo_config false)). reflexivity.
Defined.

Lemma remove_lines_keeps_shape_and_edges_witness :
  ∃ spectrum_bc',
    remove_lines demo_bagpipes (demo_config false) {[ "logU" := Num (-3) ]}
      [3; 5] [5; 5; 5; 5] ["Halpha"] = Ok spectrum_bc' ∧
    length spectrum_bc' = 4%nat ∧ spectrum_bc' !! 0%nat = Some 5.
Proof.
  assert (remove_lines demo_bagpipes (demo_config false) {[ "logU" := Num (-3) ]}
            [3; 5] [5; 5; 5; 5] ["Halpha"]
          = Ok [5; 5; 5 - 3 / ((9000 - 4861) / 2); 5]) as Hrun.
  { unfold remove_lines, remove_line.
    assert (np_argwhere (line_names demo_bagpipes) "Halpha" = [0%nat]) as ->
      by reflexivity.
    assert (take_col (line_wavs demo_bagpipes) [0%nat] = Ok [6563]) as ->
      by reflexivity.
    res_simpl.
    assert (sub_get_num ({[ "logU" := Num (-3) ]} : SubDict) "velshift" 0 = Ok 0)
      as -> by reflexivity.
    res_simpl.
    assert (np_argmin
              (abs_diff_flat (wavelengths (demo_config false))
                 ((λ x, x * (1 + 0 / (3 * 10 ^ 5))) <$> [6563])) = Ok 2%nat) as ->.
    { unfold np_argmin, abs_diff_flat.
      cbn [demo_config wavelengths fmap list_fmap concat app argmin_from].
      rewrite Rltb_true by (unfold Rabs; repeat destruct Rcase_abs; lra).
      rewrite Rltb_true by (unfold Rabs; repeat destruct Rcase_abs; lra).
      rewrite Rltb_false by (unfold Rabs; repeat destruct Rcase_abs; lra).
      reflexivity. }
    res_simpl.
    rewrite bool_decide_eq_true_2 by (simpl; lia).
    reflexivity. }
  eexists. split; [exact Hrun|].
  destruct (remove_lines_keeps_shape_and_edges demo_bagpipes (demo_config false)
              _ _ _ _ _ Hrun) as (Hlen & Hfirst & _).
  split; [exact Hlen | exact Hfirst].
Defined.

Lemma continuum_only_has_no_lines_witness :
  _calculate_full_spectrum demo_bagpipes (demo_config false) demo_heap
    (set_dust_atten (dust_atten_update demo_bagpipes ∅)
       (set_sfh (sfh_update demo_bagpipes ∅) fresh_galaxy))
    (demo_components 0) true (Some ["Hgamma"])
  = _calculate_full_spectrum demo_bagpipes (demo_config false) demo_heap
      (set_dust_atten (dust_atten_update demo_bagpipes ∅)
         (set_sfh (sfh_update demo_bagpipes ∅) fresh_galaxy))
      (demo_components 0) true None.
Proof.
  apply (continuum_only_has_no_lines demo_bagpipes (demo_config false)).
  - reflexivity.
  - intros z Hz. change (Ok 0 = Ok z) in Hz. injection Hz as <-.
    rewrite flux_dilution_zero. lra.
Defined.

Lemma no_dust_no_birth_cloud_attribute_witness :
  ∃ w' g',
    update demo_bagpipes demo_plain_config demo_world fresh_galaxy
      (demo_components 1) false None = Ok (w', g') ∧
    self_spectrum_bc g' = None ∧ self_dust_atten g' = None.
Proof.
  eexists _, _. split; [reflexivity|].
  exact (no_dust_no_birth_cloud_attribute demo_bagpipes demo_plain_config
           demo_world _ fresh_galaxy _ (demo_components 1) false None
           eq_refl eq_refl).
Defined.

Lemma plain_synthesis_witness :
  ∃ g',
    _calculate_full_spectrum demo_bagpipes demo_plain_config demo_heap
      (set_sfh (sfh_update demo_bagpipes ∅) fresh_galaxy)
      {[ "redshift" := EScalar (Num 0) ]} false None = Ok (demo_heap, g') ∧
    self_lum_flux g' = Some (flux_dilution demo_bagpipes 0).
Proof.
  pose proof (plain_synthesis demo_bagpipes demo_plain_config demo_heap
                (set_sfh (sfh_update demo_bagpipes ∅) fresh_galaxy)
                {[ "redshift" := EScalar (Num 0) ]} false None
                (sfh_update demo_bagpipes ∅) 0.01 0
                eq_refl eq_refl eq_refl eq_refl eq_refl eq_refl) as Hplain.
  cbv zeta in Hplain. destruct Hplain as (g' & Hrun & Hlum & _).
  exists g'. split; [exact Hrun | exact Hlum].
Defined.

Lemma line_flux_of_name_witness :
  ∃ g' lf,
    to_observed_flux demo_bagpipes (demo_config false)
      (set_spectrum_bc [1; 1; 1; 1] fresh_galaxy) 0 [2; 2; 2; 2] [3; 5] = Ok g' ∧
    self_line_fluxes g' = Some lf ∧
    lf !! "Halpha" = Some (3 / flux_dilution demo_bagpipes 0 * L_sun).
Proof.
  destruct (line_flux_of_name demo_bagpipes (demo_config false)
              (set_spectrum_bc [1; 1; 1; 1] fresh_galaxy) 0 [2; 2; 2; 2] [3; 5]
              0 "Halpha" 3)
    as (g' & lf & Hrun & Hlf & Hname & _).
  - simpl. apply NoDup_cons. split; [|apply NoDup_singleton].
    intros Hin. apply list_elem_of_singleton in Hin. discriminate Hin.
  - reflexivity.
  - reflexivity.
  - intros _. by exists [1; 1; 1; 1].
  - exists g', lf. split; [exact Hrun|]. split; [exact Hlf | exact Hname].
Defined.

Lemma eta_one_is_default_witness :
  birth_cloud_dust (demo_config false) {| A_cont := [1; 1; 1; 1]; A_line := [1; 1] |}
    {[ "Av" := Num 1; "eta" := Num 1 ]} [1; 1; 1; 1] [3; 5]
  = birth_cloud_dust (demo_config false) {| A_cont := [1; 1; 1; 1]; A_line := [1; 1] |}
      (delete "eta" {[ "Av" := Num 1; "eta" := Num 1 ]}) [1; 1; 1; 1] [3; 5].
Proof.
  apply (eta_one_is_default (demo_config false)); [reflexivity | simpl; lia].
Defined.

Lemma zero_extinction_is_transparent_witness :
  birth_cloud_dust (demo_config false) {| A_cont := [1; 1; 1; 1]; A_line := [1; 1] |}
    {[ "Av" := Num 0 ]} [1; 1; 1; 1] [3; 5] = Ok ([1; 1; 1; 1], [3; 5], 0) ∧
  diffuse_dust demo_bagpipes (demo_config false)
    {| A_cont := [1; 1; 1; 1]; A_line := [1; 1] |}
    {[ "Av" := Num 0 ]} [3; 3; 3; 3] [1; 1; 1; 1] 0
  = Ok ([3; 3; 3; 3], [1; 1; 1; 1], 0).
Proof.
  apply (zero_extinction_is_transparent demo_bagpipes (demo_config false)).
  - reflexivity.
  - intros s Hs. change (None = Some s) in Hs. discriminate Hs.
  - intros s Hs. change (None = Some s) in Hs. discriminate Hs.
  - intros s Hs. change (None = Some s) in Hs. discriminate Hs.
  - intros s Hs. change (None = Some s) in Hs. discriminate Hs.
  - reflexivity.
  - reflexivity.
  - reflexivity.
  - reflexivity.
  - intros qpah umin gamma. reflexivity.
Defined.

Lemma update_leaves_the_callers_components_witness :
  ∃ w' g',
    update demo_bagpipes (demo_config false) demo_world fresh_galaxy
      (demo_components 1) false None = Ok (w', g') ∧
    snap (heap w') (demo_components 1) = snap demo_heap (demo_components 1) ∧
    emitted w' = [].
Proof.
  eexists _, _. split; [reflexivity|].
  destruct (update_leaves_the_callers_components demo_bagpipes (demo_config false)
              demo_world _ fresh_galaxy _ (demo_components 1) false None
              (wf_demo_components 1) eq_refl)
    as (_ & Hsnap & _ & _ & Hwarn).
  split; [exact Hsnap | exact Hwarn].
Defined.

Lemma observables_follow_the_final_spectrum_witness :
  ∃ w' g' full,
    update demo_bagpipes demo_plain_config demo_world fresh_galaxy
      (demo_components 1) false None = Ok (w', g') ∧
    self_spectrum_full g' = Some full ∧
    self_uvj g' = Some (calculate_uvj_mags demo_bagpipes full).
Proof.
  eexists _, _.
  destruct (observables_follow_the_final_spectrum demo_bagpipes demo_plain_config
              demo_world _ fresh_galaxy _ (demo_components 1) false None eq_refl)
    as (full & Hfull & _ & Huvj & _).
  exists full. split; [reflexivity|]. split; [exact Hfull|].
  apply Huvj. reflexivity.
Defined.

Lemma update_forgets_the_previous_state_witness :
  ∃ w1 g1 w1' g1',
    update demo_bagpipes demo_plain_config demo_world fresh_galaxy
      (demo_components 1) false None = Ok (w1, g1) ∧
    update demo_bagpipes demo_plain_config demo_world
      (set_uvj [9; 9; 9] (set_spectrum_full [7] fresh_galaxy))
      (demo_components 1) false None = Ok (w1', g1') ∧
    self_spectrum_full g1' = self_spectrum_full g1 ∧
    self_uvj g1' = self_uvj g1.
Proof.
  assert (is_Some (index_list demo_plain_config) →
          is_Some (spec_wavs demo_plain_config)) as Hidx.
  { intros _. by eexists. }
  eexists _, _.
  destruct (update_forgets_the_previous_state demo_bagpipes demo_plain_config
              demo_world demo_world _ fresh_galaxy
              (set_uvj [9; 9; 9] (set_spectrum_full [7] fresh_galaxy)) _
              (demo_components 1) false None
              (wf_demo_components 1) (extends_refl _) Hidx eq_refl eq_refl)
    as (w1' & g1' & Hrun' & Hfull & _ & _ & Huvj & _).
  exists w1', g1'. split; [reflexivity|]. split; [exact Hrun'|].
  split; [exact Hfull | exact Huvj].
Defined.

Lemma agn_is_added_after_synthesis_witness :
  ∃ w' g',
    update demo_bagpipes demo_plain_config demo_world fresh_galaxy
      (demo_components 1) false None = Ok (w', g') ∧
    self_agn_spectrum g' = Some (vmul [1; 1; 1; 1] [1; 1; 1; 1]).
Proof.
  eexists _, _. split; [reflexivity|].
  destruct (agn_is_added_after_synthesis demo_bagpipes demo_plain_config
              demo_world _ fresh_galaxy _ (demo_components 1) false None
              eq_refl eq_refl)
    as (gb & F0 & param & z & _ & _ & Hparam & Hz & Hagn & _).
  change (Ok (demo_heap !!! 3%nat) = Ok param) in Hparam.
  injection Hparam as <-. exact Hagn.
Defined.

Lemma unphysical_update_ignores_options_witness :
  update demo_bagpipes (demo_config false) demo_world fresh_galaxy
    demo_unphysical false (Some ["Hgamma"])
  = update demo_bagpipes (demo_config false) demo_world fresh_galaxy
      demo_unphysical true None.
Proof.
  apply (unphysical_update_ignores_options demo_bagpipes (demo_config false)).
  reflexivity.
Defined.
